(** * The project listing of js/projects.js: load, filter/search, paginate, render

    A shallow embedding of the listing pipeline of [src/js/projects.js] and
    the properties its specification states about it.

    Conventions of the embedding.
    - A JavaScript string is the [string] of its UTF-8 bytes.  [trim] strips
      every white space and line terminator of ECMAScript, in their UTF-8
      forms; [toLowerCase] folds the letters A to Z and leaves every other
      character as it is.
    - A number the program computes itself (an array length, a page number)
      is a [Z]: these are integers far below 2^53, where the double
      arithmetic of the source is exact.  A number of the JSON data is given
      by what the program can observe of it: whether it is zero, and its
      text.
    - A parsed JSON object is a finite map from property names to values;
      [None] on lookup is JavaScript's [undefined].
    - A statement sequence that may throw is a computation in the monad [js]:
      state passing with an abnormal completion. *)

From Stdlib Require Import ZArith Ascii String.
From stdpp Require Import gmap strings list pretty.

#[local] Open Scope Z_scope.

(** ** Values *)

Module JS.

#[warnings="-register-all"]
Inductive json : Type :=
| JNull
| JBool (b : bool)
| JNum (nonzero : bool) (text : string)
| JStr (s : string)
| JArr (l : list json)
| JObj (m : gmap string json).

(** A property read [p.k] gives [undefined] when the property is absent. *)
Abbreviation value := (option json).
Abbreviation undefined := (@None json).

(** A record of the catalog: the object built by [{ id: ..., ...p }]. *)
Abbreviation record := (gmap string json).

Inductive exn : Type :=
| TypeError (msg : string)
| SyntaxError (msg : string)
| Error (msg : string).

Inductive completion (A : Type) : Type :=
| Normal (a : A)
| Throw (e : exn).
Arguments Normal {A} a.
Arguments Throw {A} e.

Definition is_normal {A} (c : completion A) : bool :=
  match c with Normal _ => true | Throw _ => false end.

#[export] Instance completion_ret : MRet completion := @Normal.
#[export] Instance completion_bind : MBind completion := fun A B k c =>
  match c with
  | Normal a => k a
  | Throw e => Throw e
  end.

(** The number [z], for an integer of the safe range: it prints as its
    decimal numeral. *)
Definition num (z : Z) : json := JNum (negb (z =? 0)) (pretty z).

(** ToBoolean: [undefined], [null], [false], [0] and [''] are falsy. *)
Definition truthy (v : value) : bool :=
  match v with
  | None => false
  | Some JNull => false
  | Some (JBool b) => b
  | Some (JNum nonzero _) => nonzero
  | Some (JStr s) => negb (String.eqb s "")
  | Some (JArr _) => true
  | Some (JObj _) => true
  end.

(** ** Strings *)

Definition lower_char (c : ascii) : ascii :=
  let n := nat_of_ascii c in
  if ((65 <=? n) && (n <=? 90))%nat then ascii_of_nat (n + 32) else c.

(** [s.toLowerCase()] *)
Fixpoint toLowerCase (s : string) : string :=
  match s with
  | EmptyString => EmptyString
  | String c s' => String (lower_char c) (toLowerCase s')
  end.

(** White space and line terminators (TAB, LF, VT, FF, CR, the space, U+00A0,
    U+1680, U+2000 to U+200A, U+2028, U+2029, U+202F, U+205F, U+3000 and
    U+FEFF) by the length of their UTF-8 form. *)
Definition space1 (a : ascii) : bool :=
  let n := nat_of_ascii a in
  ((9 <=? n) && (n <=? 13) || (n =? 32))%nat.

Definition space2 (a b : ascii) : bool :=
  ((nat_of_ascii a =? 194) && (nat_of_ascii b =? 160))%nat.

Definition space3 (a b c : ascii) : bool :=
  let x := nat_of_ascii a in
  let y := nat_of_ascii b in
  let z := nat_of_ascii c in
  (((x =? 225) && (y =? 154) && (z =? 128))
   || ((x =? 226) && (y =? 128)
       && ((128 <=? z) && (z <=? 138) || (z =? 168) || (z =? 169) || (z =? 175)))
   || ((x =? 226) && (y =? 129) && (z =? 159))
   || ((x =? 227) && (y =? 128) && (z =? 128))
   || ((x =? 239) && (y =? 187) && (z =? 191)))%nat.

(** The string is made of white space only. *)
Fixpoint all_space (s : string) : bool :=
  match s with
  | EmptyString => true
  | String a r =>
      if space1 a then all_space r
      else
        match r with
        | EmptyString => false
        | String b r2 =>
            if space2 a b then all_space r2
            else
              match r2 with
              | EmptyString => false
              | String c r3 => if space3 a b c then all_space r3 else false
              end
        end
  end.

Fixpoint trimStart (s : string) : string :=
  match s with
  | EmptyString => EmptyString
  | String a r =>
      if space1 a then trimStart r
      else
        match r with
        | EmptyString => s
        | String b r2 =>
            if space2 a b then trimStart r2
            else
              match r2 with
              | EmptyString => s
              | String c r3 => if space3 a b c then trimStart r3 else s
              end
        end
  end.

Fixpoint trimEnd (s : string) : string :=
  match s with
  | EmptyString => EmptyString
  | String c s' => if all_space s then EmptyString else String c (trimEnd s')
  end.

(** [s.trim()] *)
Definition trim (s : string) : string := trimEnd (trimStart s).

Fixpoint startsWith (s needle : string) {struct needle} : bool :=
  match needle, s with
  | EmptyString, _ => true
  | String _ _, EmptyString => false
  | String a needle', String b s' => Ascii.eqb a b && startsWith s' needle'
  end.

(** [s.includes(needle)] on strings: [needle] occurs in [s]. *)
Fixpoint includes (s needle : string) : bool :=
  startsWith s needle ||
  match s with
  | EmptyString => false
  | String _ s' => includes s' needle
  end.

(** [xs.join(sep)] once every element is a string. *)
Fixpoint join (sep : string) (xs : list string) : string :=
  match xs with
  | [] => ""
  | [x] => x
  | x :: xs' => x +:+ sep +:+ join sep xs'
  end.

Definition cannot_convert : exn :=
  TypeError "Cannot convert object to primitive value".

(** ToString of a defined value.  An array joins its elements with a comma,
    [null] elements giving the empty string.  An object of the JSON data
    prints as [[object Object]] through [Object.prototype.toString], unless
    it has a [toString] property of its own: that is data, not a function,
    and the conversion throws. *)
Fixpoint toString (v : json) : completion string :=
  match v with
  | JNull => Normal "null"
  | JBool true => Normal "true"
  | JBool false => Normal "false"
  | JNum _ text => Normal text
  | JStr s => Normal s
  | JArr l =>
      parts ← (fix elements (l : list json) : completion (list string) :=
                 match l with
                 | [] => Normal []
                 | e :: l' =>
                     x ← match e with JNull => Normal "" | _ => toString e end;
                     xs ← elements l';
                     Normal (x :: xs)
                 end) l;
      Normal (join "," parts)
  | JObj m =>
      match m !! "toString" with
      | Some _ => Throw cannot_convert
      | None => Normal "[object Object]"
      end
  end.

(** The text of an element in [join]: empty for [null]. *)
Definition element_text (e : json) : completion string :=
  match e with JNull => Normal "" | _ => toString e end.

(** [l.join(sep)] *)
Definition array_join (sep : string) (l : list json) : completion string :=
  parts ← mapM element_text l;
  Normal (join sep parts).

(** [v.toString()], the method called on a defined value: as ToString, but
    for an object with a [toString] of its own, where the call itself
    fails. *)
Definition toString_method (v : json) : completion string :=
  match v with
  | JObj m =>
      match m !! "toString" with
      | Some _ => Throw (TypeError "(intermediate value).toString is not a function")
      | None => Normal "[object Object]"
      end
  | _ => toString v
  end.

(** ToString as a template literal applies it: [`${v}`]. *)
Definition template (v : value) : completion string :=
  match v with
  | None => Normal "undefined"
  | Some j => toString j
  end.

(** [`${v || ''}`] *)
Definition or_empty (v : value) : completion string :=
  match v with
  | Some j => if truthy v then toString j else Normal ""
  | None => Normal ""
  end.

(** [(v || '').toString()] *)
Definition or_empty_method (v : value) : completion string :=
  match v with
  | Some j => if truthy v then toString_method j else Normal ""
  | None => Normal ""
  end.

(** ** Arrays *)

(** [v === s] for a string [s]: strict equality with a string holds for an
    equal string only. *)
Definition strict_eq_string (v : value) (s : string) : bool :=
  match v with
  | Some (JStr t) => String.eqb t s
  | _ => false
  end.

(** [l.includes(s)] for a string [s] (SameValueZero on each element). *)
Definition array_includes (l : list json) (s : string) : bool :=
  existsb (fun e => strict_eq_string (Some e) s) l.

(** The relative index of [slice]: a negative one counts from the end. *)
Definition slice_index (len k : Z) : Z :=
  if k <? 0 then Z.max (len + k) 0 else Z.min k len.

(** [l.slice(from, to)] *)
Definition slice {A} (l : list A) (from to : Z) : list A :=
  let len := Z.of_nat (length l) in
  let a := slice_index len from in
  let b := slice_index len to in
  take (Z.to_nat (b - a)) (drop (Z.to_nat a) l).

(** [Math.ceil(n / d)] for integers [n] and [d > 0]: the least integer not
    below the quotient. *)
Definition ceil_div (n d : Z) : Z := - ((- n) / d).

(** [p.k] on a parsed JSON value other than [null]: an object has its own
    properties; no other JSON value has a property named by a word such as
    [id]. *)
Definition get_prop (p : json) (k : string) : value :=
  match p with
  | JObj m => m !! k
  | _ => None
  end.

Definition indexed {A} (f : A -> json) (l : list A) : gmap string json :=
  list_to_map (imap (fun i x => (pretty i, f x)) l).

(** The characters of a string as the spread sees them (one per byte here;
    the program reads none of these properties). *)
Fixpoint chars (s : string) : list string :=
  match s with
  | EmptyString => []
  | String c s' => String c EmptyString :: chars s'
  end.

(** The own enumerable properties a spread [...p] copies. *)
Definition own_props (p : json) : gmap string json :=
  match p with
  | JObj m => m
  | JArr l => indexed id l
  | JStr s => indexed JStr (chars s)
  | _ => ∅
  end.

End JS.

(** ** The page and the module state *)

Module Projects.
Import JS.

(** A link of a card. *)
Record link : Type := mkLink {
  href : string;
  link_text : string;
  link_label : string;        (* aria-label *)
  new_tab : bool              (* target _blank, rel noopener *)
}.

(** The [article] that [buildCard] makes for one record: the attributes and
    texts it sets. *)
Record card : Type := mkCard {
  labelledby : string;        (* aria-labelledby *)
  alt : string;
  data_src : option string;   (* dataset.src, for the lazy loader *)
  src : option string;
  heading_id : string;
  heading : string;           (* textContent of the h3 *)
  blurb : string;             (* textContent of the description *)
  meta : string;              (* innerHTML of the tech line *)
  links : list link
}.

(** What [#projects-grid] holds. *)
Inductive grid_content : Type :=
| Blank
| EmptyState
| UnableToLoad
| Cards (items : list card).

Inductive control : Type := PrevControl | NextControl.

(** The module variables of the listing ([projects], [filtered],
    [currentPage], [totalPages]), the elements it looked up when the document
    was ready ([None] for an element the page does not have; the grid itself
    is there, otherwise nothing runs), and what it did to the outside: the
    errors written to the console, the requests sent, the debounce timer. *)
Record state : Type := mkState {
  projects : list record;
  filtered : list record;
  currentPage : Z;
  totalPages : Z;
  grid : grid_content;
  gridLabel : option string;
  filterSelect : option string;   (* its value *)
  searchInput : option string;    (* its value *)
  pagination : option bool;       (* its hidden flag *)
  prevBtn : option bool;          (* its disabled flag *)
  nextBtn : option bool;          (* its disabled flag *)
  pageInfo : option string;       (* its text *)
  focused : option control;      (* the control on which focus() last took effect *)
  console : list exn;
  fetches : nat;
  timer : bool                    (* a debounced call is pending *)
}.

Definition set_projects v s := mkState v (filtered s) (currentPage s) (totalPages s) (grid s) (gridLabel s) (filterSelect s) (searchInput s) (pagination s) (prevBtn s) (nextBtn s) (pageInfo s) (focused s) (console s) (fetches s) (timer s).
Definition set_filtered v s := mkState (projects s) v (currentPage s) (totalPages s) (grid s) (gridLabel s) (filterSelect s) (searchInput s) (pagination s) (prevBtn s) (nextBtn s) (pageInfo s) (focused s) (console s) (fetches s) (timer s).
Definition set_currentPage v s := mkState (projects s) (filtered s) v (totalPages s) (grid s) (gridLabel s) (filterSelect s) (searchInput s) (pagination s) (prevBtn s) (nextBtn s) (pageInfo s) (focused s) (console s) (fetches s) (timer s).
Definition set_totalPages v s := mkState (projects s) (filtered s) (currentPage s) v (grid s) (gridLabel s) (filterSelect s) (searchInput s) (pagination s) (prevBtn s) (nextBtn s) (pageInfo s) (focused s) (console s) (fetches s) (timer s).
Definition set_grid v s := mkState (projects s) (filtered s) (currentPage s) (totalPages s) v (gridLabel s) (filterSelect s) (searchInput s) (pagination s) (prevBtn s) (nextBtn s) (pageInfo s) (focused s) (console s) (fetches s) (timer s).
Definition set_gridLabel v s := mkState (projects s) (filtered s) (currentPage s) (totalPages s) (grid s) v (filterSelect s) (searchInput s) (pagination s) (prevBtn s) (nextBtn s) (pageInfo s) (focused s) (console s) (fetches s) (timer s).
Definition set_filterSelect v s := mkState (projects s) (filtered s) (currentPage s) (totalPages s) (grid s) (gridLabel s) v (searchInput s) (pagination s) (prevBtn s) (nextBtn s) (pageInfo s) (focused s) (console s) (fetches s) (timer s).
Definition set_searchInput v s := mkState (projects s) (filtered s) (currentPage s) (totalPages s) (grid s) (gridLabel s) (filterSelect s) v (pagination s) (prevBtn s) (nextBtn s) (pageInfo s) (focused s) (console s) (fetches s) (timer s).
Definition set_pagination v s := mkState (projects s) (filtered s) (currentPage s) (totalPages s) (grid s) (gridLabel s) (filterSelect s) (searchInput s) v (prevBtn s) (nextBtn s) (pageInfo s) (focused s) (console s) (fetches s) (timer s).
Definition set_prevBtn v s := mkState (projects s) (filtered s) (currentPage s) (totalPages s) (grid s) (gridLabel s) (filterSelect s) (searchInput s) (pagination s) v (nextBtn s) (pageInfo s) (focused s) (console s) (fetches s) (timer s).
Definition set_nextBtn v s := mkState (projects s) (filtered s) (currentPage s) (totalPages s) (grid s) (gridLabel s) (filterSelect s) (searchInput s) (pagination s) (prevBtn s) v (pageInfo s) (focused s) (console s) (fetches s) (timer s).
Definition set_pageInfo v s := mkState (projects s) (filtered s) (currentPage s) (totalPages s) (grid s) (gridLabel s) (filterSelect s) (searchInput s) (pagination s) (prevBtn s) (nextBtn s) v (focused s) (console s) (fetches s) (timer s).
Definition set_focused v s := mkState (projects s) (filtered s) (currentPage s) (totalPages s) (grid s) (gridLabel s) (filterSelect s) (searchInput s) (pagination s) (prevBtn s) (nextBtn s) (pageInfo s) v (console s) (fetches s) (timer s).
Definition set_console v s := mkState (projects s) (filtered s) (currentPage s) (totalPages s) (grid s) (gridLabel s) (filterSelect s) (searchInput s) (pagination s) (prevBtn s) (nextBtn s) (pageInfo s) (focused s) v (fetches s) (timer s).
Definition set_fetches v s := mkState (projects s) (filtered s) (currentPage s) (totalPages s) (grid s) (gridLabel s) (filterSelect s) (searchInput s) (pagination s) (prevBtn s) (nextBtn s) (pageInfo s) (focused s) (console s) v (timer s).
Definition set_timer v s := mkState (projects s) (filtered s) (currentPage s) (totalPages s) (grid s) (gridLabel s) (filterSelect s) (searchInput s) (pagination s) (prevBtn s) (nextBtn s) (pageInfo s) (focused s) (console s) (fetches s) v.

(** ** Statements that may throw *)

Definition js (A : Type) : Type := state -> completion A * state.

#[export] Instance js_ret : MRet js := fun A a s => (Normal a, s).
#[export] Instance js_bind : MBind js := fun A B k m s =>
  match m s with
  | (Normal a, s') => k a s'
  | (Throw e, s') => (Throw e, s')
  end.

Definition throw {A} (e : exn) : js A := fun s => (Throw e, s).
Definition lift {A} (c : completion A) : js A := fun s => (c, s).
Definition gets {A} (f : state -> A) : js A := fun s => (Normal (f s), s).
Definition modify (f : state -> state) : js unit := fun s => (Normal tt, f s).
Definition skip : js unit := mret tt.

(** [try { body } catch (err) { handler }] *)
Definition try_catch (body : js unit) (handler : exn -> js unit) : js unit :=
  fun s =>
    match body s with
    | (Normal a, s') => (Normal a, s')
    | (Throw e, s') => handler e s'
    end.

(** A property write on an element that the page does not have: the variable
    holds [null]. *)
Definition null_write {A} (name prop : string) : js A :=
  throw (TypeError ("Cannot set properties of null (setting '" +:+ prop +:+ "') on " +:+ name)).

(** ** buildCard *)

(** [createText(tag, text)], the text of the element it makes, set by
    [el.textContent = text]: the attribute is a nullable string, so
    [undefined] and [null] give the empty text, and any other value is
    converted. *)
Definition createText (text : value) : completion string :=
  match text with
  | None | Some JNull => Normal ""
  | Some j => toString j
  end.

(** A value assigned to a string attribute of an element ([alt], [href],
    [dataset.src]): converted by ToString. *)
Definition attribute (j : json) : completion string := toString j.

(** [buildCard(p)]: the conversions to a string that the function makes, in
    its order; the first that throws ends it. *)
Definition buildCard (p : record) : completion card :=
  title_id ← template (p !! "id");
  alt ← (if truthy (p !! "imageAlt")
         then match p !! "imageAlt" with Some j => attribute j | None => Normal "" end
         else t ← template (p !! "title"); Normal (t +:+ " screenshot"));
  image ← (if truthy (p !! "image")
           then match p !! "image" with Some j => x ← attribute j; Normal (Some x)
                | None => Normal None end
           else Normal None);
  h3 ← createText (p !! "title");
  h3_id ← template (p !! "id");
  desc ← (if truthy (p !! "description")
          then createText (p !! "description") else Normal "");
  tech ← match p !! "tech" with
         | Some (JArr l) => array_join " · " l
         | v => if truthy v then template v else Normal "—"
         end;
  details ← (if truthy (p !! "detailsUrl")
             then match p !! "detailsUrl" with
                  | Some j =>
                      h ← attribute j;
                      t ← template (p !! "title");
                      Normal [mkLink h "Details" ("View details for " +:+ t) false]
                  | None => Normal []
                  end
             else Normal []);
  source ← (if truthy (p !! "sourceUrl")
            then match p !! "sourceUrl" with
                 | Some j =>
                     h ← attribute j;
                     t ← template (p !! "title");
                     Normal [mkLink h "Source" ("View source for " +:+ t) true]
                 | None => Normal []
                 end
            else Normal []);
  Normal (mkCard ("project-title-" +:+ title_id) alt image
            (match image with
             | Some _ => None
             | None => Some "assets/images/project-placeholder.png"
             end)
            ("project-title-" +:+ h3_id) h3 desc
            ("<strong>Tech:</strong> " +:+ tech) (details ++ source)).

(** ** render *)

Definition PER_PAGE : Z := 6.

(** [if (pagination) pagination.hidden = true;] *)
Definition hide_pagination : js unit :=
  pg ← gets pagination;
  match pg with
  | Some _ => modify (set_pagination (Some true))
  | None => skip
  end.

Definition update_pagination (cp tp : Z) : js unit :=
  pg ← gets pagination;
  match pg with
  | Some _ =>
      modify (set_pagination (Some (tp <=? 1)));;
      prev ← gets prevBtn;
      match prev with
      | Some _ => modify (set_prevBtn (Some (cp =? 1)))
      | None => null_write "prevBtn" "disabled"
      end;;
      next ← gets nextBtn;
      match next with
      | Some _ => modify (set_nextBtn (Some (cp =? tp)))
      | None => null_write "nextBtn" "disabled"
      end;;
      info ← gets pageInfo;
      match info with
      | Some _ =>
          modify (set_pageInfo (Some ("Page " +:+ pretty cp +:+ " of " +:+ pretty tp)))
      | None => skip
      end
  | None => skip
  end.

Definition render : js unit :=
  modify (set_grid Blank);;
  fl ← gets filtered;
  if (length fl =? 0)%nat then
    modify (set_grid EmptyState);;
    hide_pagination
  else
    let tp := Z.max 1 (ceil_div (Z.of_nat (length fl)) PER_PAGE) in
    modify (set_totalPages tp);;
    requested ← gets currentPage;
    let cp := Z.min requested tp in
    modify (set_currentPage cp);;
    let start := (cp - 1) * PER_PAGE in
    let pageItems := slice fl start (start + PER_PAGE) in
    cards ← lift (mapM buildCard pageItems);
    modify (set_grid (Cards cards));;
    update_pagination cp tp;;
    modify (set_gridLabel (Some (pretty (length fl) +:+ " projects. Showing "
                                 +:+ pretty (length pageItems) +:+ " on this page."))).

(** ** applyFilters *)

(** [t.toLowerCase()] on an element of [p.tech]: a method of strings only. *)
Definition lower_element (t : json) : completion string :=
  match t with
  | JStr s => Normal (toLowerCase s)
  | JNull => Throw (TypeError "Cannot read properties of null (reading 'toLowerCase')")
  | _ => Throw (TypeError "t.toLowerCase is not a function")
  end.

(** [Array.isArray(p.tags) ? p.tags.includes(tech) : (p.tags === tech)] *)
Definition tags_match (tech : string) (p : record) : bool :=
  match p !! "tags" with
  | Some (JArr l) => array_includes l tech
  | v => strict_eq_string v tech
  end.

(** [Array.isArray(p.tech) && p.tech.map(t=>t.toLowerCase()).includes(tech)] *)
Definition tech_match (tech : string) (p : record) : completion bool :=
  match p !! "tech" with
  | Some (JArr l) =>
      lowered ← mapM lower_element l;
      mret (bool_decide (tech ∈ lowered))
  | _ => mret false
  end.

(** The value of [okTech]; [||] evaluates its right operand only when the
    left one is false. *)
Definition okTech (tech : string) (p : record) : completion bool :=
  if String.eqb tech "all" then mret true
  else if tags_match tech p then mret true
  else tech_match tech p.

(** The haystack of line 154; each conversion may throw, in the order of
    the template. *)
Definition hay (p : record) : completion string :=
  title ← template (p !! "title");
  description ← or_empty (p !! "description");
  tech ← or_empty_method (p !! "tech");
  tags ← or_empty_method (p !! "tags");
  Normal (toLowerCase (title +:+ " " +:+ description +:+ " " +:+ tech +:+ " " +:+ tags)).

(** The text test, the part of the callback after [okTech]. *)
Definition okText (query : string) (p : record) : completion bool :=
  if String.eqb query "" then mret true
  else h ← hay p; mret (includes h query).

(** The callback given to [projects.filter]. *)
Definition keep (tech query : string) (p : record) : completion bool :=
  ok ← okTech tech p;
  if negb (ok : bool) then mret false else okText query p.

(** [l.filter(f)] with a callback that may throw. *)
Fixpoint filterM {A} (f : A -> completion bool) (l : list A) : completion (list A) :=
  match l with
  | [] => mret []
  | x :: l' =>
      b ← f x;
      rest ← filterM f l';
      mret (if (b : bool) then x :: rest else rest)
  end.

(** The two inputs as [applyFilters] reads them. *)
Definition selected_tag (sel : option string) : string :=
  match sel with Some v => v | None => "all" end.

Definition search_query (inp : option string) : string :=
  match inp with Some v => toLowerCase (trim v) | None => "" end.

Definition applyFilters : js unit :=
  sel ← gets filterSelect;
  inp ← gets searchInput;
  let tech := selected_tag sel in
  let query := search_query inp in
  ps ← gets projects;
  kept ← lift (filterM (keep tech query) ps);
  modify (set_filtered kept);;
  modify (set_currentPage 1);;
  render.

(** ** load *)

(** What the request for [data/projects.json] comes back with: the promise
    of [fetch] rejects, or a response arrives with a status and a body that
    parses as JSON ([Some]) or does not ([None]). *)
Inductive fetched : Type :=
| NetworkError
| Responded (status : Z) (body : option json).

(** [resp.ok] *)
Definition ok (status : Z) : bool := (200 <=? status) && (status <=? 299).

Definition MalformedCatalog : exn :=
  Error "projects.json must be an array of project objects".

(** [a || b] as a value. *)
Definition or_else (a : value) (b : json) : json :=
  match a with
  | Some j => if truthy a then j else b
  | None => b
  end.

(** [(p, i) => ({ id: p.id || `p${i+1}`, ...p })]: reading [p.id] throws on
    [null]; the spread comes second, so an [id] of [p] itself stays. *)
Definition normalize (p : json) (i : nat) : completion record :=
  match p with
  | JNull => Throw (TypeError "Cannot read properties of null (reading 'id')")
  | _ =>
      let id := or_else (get_prop p "id") (JStr ("p" +:+ pretty (i + 1)%nat)) in
      Normal (own_props p ∪ {[ "id" := id ]})
  end.

(** [data.map(f)], the callback taking the element and its index. *)
Fixpoint map_from {A B} (f : A -> nat -> completion B) (i : nat) (l : list A)
  : completion (list B) :=
  match l with
  | [] => mret []
  | x :: l' =>
      y ← f x i;
      rest ← map_from f (S i) l';
      mret (y :: rest)
  end.

(** The [catch] block of [load]. *)
Definition load_failed (err : exn) : js unit :=
  modify (fun s => set_console (console s ++ [err]) s);;
  modify (set_grid UnableToLoad);;
  hide_pagination.

Definition load (net : fetched) : js unit :=
  try_catch
    (modify (fun s => set_fetches (S (fetches s)) s);;
     match net with
     | NetworkError => throw (TypeError "Failed to fetch")
     | Responded status body =>
         if negb (ok status) then
           throw (Error ("Failed to fetch projects.json (" +:+ pretty status +:+ ")"))
         else
           match body with
           | None => throw (SyntaxError "Unexpected token in JSON")
           | Some (JArr data) =>
               ps ← lift (map_from normalize 0 data);
               modify (set_projects ps);;
               modify (set_filtered ps);;
               render
           | Some _ => throw MalformedCatalog
           end
     end)
    load_failed.

(** ** Event listeners *)

(** The previous and next controls are buttons inside the pagination bar
    (they carry [disabled], and the bar is what [hidden] hides): one can
    take the focus when it is enabled and the bar is shown. *)
Definition focusable (c : control) (s : state) : bool :=
  match (match c with PrevControl => prevBtn s | NextControl => nextBtn s end) with
  | Some false => match pagination s with Some true => false | _ => true end
  | _ => false
  end.

(** [btn.focus()]: nothing happens on a button that cannot take the focus. *)
Definition focus (c : control) : js unit :=
  modify (fun s => if focusable c s then set_focused (Some c) s else s).

Definition prevClick : js unit :=
  cp ← gets currentPage;
  if 1 <? cp then
    modify (set_currentPage (cp - 1));;
    render;;
    focus PrevControl
  else skip.

Definition nextClick : js unit :=
  cp ← gets currentPage;
  tp ← gets totalPages;
  if cp <? tp then
    modify (set_currentPage (cp + 1));;
    render;;
    focus NextControl
  else skip.

(** What the visitor does.  [TypeSearch] is an input event of the search
    field, which (re)starts the debounce timer; [TimerFires] is that timer
    running out. *)
Inductive event : Type :=
| SelectTag (v : string)
| TypeSearch (v : string)
| TimerFires
| PressEnter
| ClickPrev
| ClickNext.

(** A listener exists only for an element the page has.  A click is let
    through to its listener whether or not the button is disabled. *)
Definition handle (e : event) : js unit :=
  fun s =>
    match e with
    | SelectTag v =>
        match filterSelect s with
        | Some _ => applyFilters (set_filterSelect (Some v) s)
        | None => skip s
        end
    | TypeSearch v =>
        match searchInput s with
        | Some _ => skip (set_timer true (set_searchInput (Some v) s))
        | None => skip s
        end
    | TimerFires =>
        if timer s then applyFilters (set_timer false s) else skip s
    | PressEnter =>
        match searchInput s with
        | Some _ => applyFilters s
        | None => skip s
        end
    | ClickPrev =>
        match prevBtn s with
        | Some _ => prevClick s
        | None => skip s
        end
    | ClickNext =>
        match nextBtn s with
        | Some _ => nextClick s
        | None => skip s
        end
    end.

(** An exception that leaves a listener is reported on the console; what the
    listener had done by then stays. *)
Definition dispatch (s : state) (e : event) : state :=
  match handle e s with
  | (Normal _, s') => s'
  | (Throw err, s') => set_console (console s' ++ [err]) s'
  end.

Definition run (evs : list event) (s : state) : state := foldl dispatch s evs.

(** The state when [DOMContentLoaded] has run the script, for a page with
    the given elements. *)
Definition initial (sel inp : option string) (pg prev next : option bool)
    (info : option string) : state :=
  mkState [] [] 1 1 Blank None sel inp pg prev next info None [] 0 false.

(** A visit: the request is answered at some point between the visitor's
    actions. *)
Definition visit (page : state) (before : list event) (net : fetched)
    (after : list event) : state :=
  run after (snd (load net (run before page))).

End Projects.

(** ** The specification's wording of the properties that are compared with
    the code *)

Module Spec.
Import JS Projects.

(** The data model lets [tech] and [tags] be one string or a sequence of
    strings: the collection a field stands for. *)
Definition collection (v : value) : list json :=
  match v with
  | None => []
  | Some (JArr l) => l
  | Some j => [j]
  end.

(** The tag test as the specification words it: the sentinel, or the tag
    among the tags as it is written, or among the tech values with case
    ignored. *)
Definition tag_passes (tech : string) (p : record) : Prop :=
  tech = "all"
  ∨ JStr tech ∈ collection (p !! "tags")
  ∨ ∃ t, JStr t ∈ collection (p !! "tech") ∧ toLowerCase t = toLowerCase tech.

(** The pager's stored numbers agree with the filtered subset. *)
Definition pager_consistent (s : state) : Prop :=
  totalPages s = Z.max 1 (ceil_div (Z.of_nat (length (filtered s))) PER_PAGE)
  ∧ 1 ≤ currentPage s ≤ totalPages s.

Definition ids (ps : list record) : list value := (fun p : record => p !! "id") <$> ps.

Definition is_object (j : json) : bool :=
  match j with JObj _ => true | _ => false end.

Definition is_array (j : json) : bool :=
  match j with JArr _ => true | _ => false end.

(** A body that is a sequence of objects. *)
Definition sequence_of_objects (j : json) : bool :=
  match j with
  | JArr l => forallb is_object l
  | _ => false
  end.

(** The data model's typing of [tech]: when it is a sequence, a sequence of
    strings. *)
Definition is_string (j : json) : bool :=
  match j with JStr _ => true | _ => false end.

Definition tech_typed (p : record) : bool :=
  match p !! "tech" with
  | Some (JArr l) => forallb is_string l
  | _ => true
  end.

(** The data model of the specification, field by field: [title] and [id]
    are strings; [description], [image], [imageAlt], [detailsUrl] and
    [sourceUrl] are strings or absent; [tech] and [tags] are a string or a
    sequence of strings, or absent. *)
Definition is_text (v : value) : bool :=
  match v with Some (JStr _) => true | _ => false end.

Definition optional_text (v : value) : bool :=
  match v with None | Some (JStr _) => true | _ => false end.

Definition text_or_texts (v : value) : bool :=
  match v with
  | None | Some (JStr _) => true
  | Some (JArr l) => forallb is_string l
  | _ => false
  end.

(** The fields that the search reads are typed as the data model says. *)
Definition text_typed (p : record) : bool :=
  is_text (p !! "title") && optional_text (p !! "description")
  && text_or_texts (p !! "tech") && text_or_texts (p !! "tags").

(** The record is one of the data model. *)
Definition conforms (p : record) : bool :=
  is_text (p !! "id") && text_typed p
  && optional_text (p !! "image") && optional_text (p !! "imageAlt")
  && optional_text (p !! "detailsUrl") && optional_text (p !! "sourceUrl").

(** The text of a field of the data model: the string, or the strings of
    the sequence with commas between them; nothing when it is absent. *)
Definition text_of (j : json) : string :=
  match j with JStr s => s | _ => "" end.

Definition field_text (v : value) : string :=
  match v with
  | Some (JStr s) => s
  | Some (JArr l) => String.concat "," (text_of <$> l)
  | _ => ""
  end.

(** The concatenation of the record's title, description, tech and tags
    (with a space between two fields). *)
Definition record_text (p : record) : string :=
  field_text (p !! "title") +:+ " " +:+ field_text (p !! "description")
  +:+ " " +:+ field_text (p !! "tech") +:+ " " +:+ field_text (p !! "tags").

(** Two characters are the same but for the case of a letter A to Z. *)
Definition capital (c : ascii) : bool :=
  let n := nat_of_ascii c in ((65 <=? n) && (n <=? 90))%nat.





(** The [id] a source element carries itself, if any. *)
Definition own_id (p : json) : value := own_props p !! "id".

(** The load failures: no response, a status outside 200..299, a body that
    is not JSON, a body that is not an array, an array with a [null] in it. *)
Definition load_fails (net : fetched) : bool :=
  match net with
  | NetworkError => true
  | Responded status body =>
      negb (ok status) ||
      match body with
      | None => true
      | Some (JArr l) => existsb (fun j => match j with JNull => true | _ => false end) l
      | Some _ => true
      end
  end.

(** ** Auxiliary notions of the proofs *)

(** The page count [render] stores for a subset of [n] records. *)
Definition pages (n : nat) : Z := Z.max 1 (ceil_div (Z.of_nat n) PER_PAGE).

(** The subset [applyFilters] computes in a state. *)
Definition filter_of (s : state) : completion (list record) :=
  filterM (keep (selected_tag (filterSelect s)) (search_query (searchInput s))) (projects s).

(** The error [load] throws before it has stored anything, if any. *)
Definition rejection (net : fetched) : option exn :=
  match net with
  | NetworkError => Some (TypeError "Failed to fetch")
  | Responded status body =>
      if negb (ok status) then
        Some (Error ("Failed to fetch projects.json (" +:+ pretty status +:+ ")"))
      else
        match body with
        | None => Some (SyntaxError "Unexpected token in JSON")
        | Some (JArr data) =>
            match map_from normalize 0 data with
            | Normal _ => None
            | Throw e => Some e
            end
        | Some _ => Some MalformedCatalog
        end
  end.

(** The page has the element. *)
Definition present {A} (o : option A) : bool :=
  match o with Some _ => true | None => false end.

(** What no step of the listing touches: the catalog, the number of requests
    sent, which elements the page has; and the subset stays drawn from the
    catalog. *)
Definition kept_apart (s s' : state) : Prop :=
  projects s' = projects s ∧ fetches s' = fetches s
  ∧ present (pagination s') = present (pagination s)
  ∧ (filtered s `sublist_of` projects s → filtered s' `sublist_of` projects s').

End Spec.

(** ** Sample pages and catalogs *)

Module Samples.
Import JS Projects.

Definition obj (fields : list (string * json)) : json := JObj (list_to_map fields).

(** A page that has every element of the listing. *)
Definition full_page : state :=
  initial (Some "all") (Some "") (Some false) (Some false) (Some false) (Some "").

Definition seven : list json :=
  [ obj [("title", JStr "Alpha")]; obj [("title", JStr "Beta")];
    obj [("title", JStr "Gamma")]; obj [("title", JStr "Delta")];
    obj [("title", JStr "Epsilon")]; obj [("title", JStr "Zeta")];
    obj [("title", JStr "Eta")] ].

Definition answered (data : list json) : fetched := Responded 200 (Some (JArr data)).

(** Seven records are on show, then a search finds none of them. *)
Definition after_empty_search : state :=
  visit full_page [] (answered seven) [TypeSearch "zzz"; TimerFires].

Definition shop : record :=
  list_to_map [("title", JStr "Shop"); ("tech", JArr [JStr "React"; JStr "Node"]);
               ("tags", JArr [JStr "web"])].

Definition same_id_twice : list json :=
  [ obj [("id", JStr "a"); ("title", JStr "One")];
    obj [("id", JStr "a"); ("title", JStr "Two")] ].

Definition id_like_a_position : list json :=
  [ obj [("id", JStr "p2"); ("title", JStr "One")];
    obj [("title", JStr "Two")] ].

Definition third_without_id : list json :=
  [ obj [("id", JStr "x"); ("title", JStr "One")];
    obj [("id", JStr "y"); ("title", JStr "Two")];
    obj [("title", JStr "Three")] ].

Definition two_numbers : json := JArr [num 1; num 2].

End Samples.

(** ** Notions of the further properties *)

Module Listing.
Import JS Projects Spec.

(** The records of page [k] (from 1), as [render] cuts them out of the
    subset: [filtered.slice(start, start + PER_PAGE)] with
    [start = (k - 1) * PER_PAGE]. *)
Definition page_of (fl : list record) (k : Z) : list record :=
  slice fl ((k - 1) * PER_PAGE) ((k - 1) * PER_PAGE + PER_PAGE).

(** The pages 1 .. [totalPages] of a subset, in order. *)
Definition all_pages (fl : list record) : list (list record) :=
  (fun k : nat => page_of fl (Z.of_nat k)) <$> seq 1 (Z.to_nat (pages (length fl))).

(** What holds of the pager's numbers in every state a visit reaches. *)
Definition pager_inv (s : state) : Prop :=
  1 ≤ currentPage s ≤ totalPages s
  ∧ (filtered s ≠ [] → totalPages s = pages (length (filtered s)))
  ∧ (projects s = [] → currentPage s = 1 ∧ totalPages s = 1).

(** The two states have the same elements on the page. *)
Definition same_elements (s s' : state) : Prop :=
  present (filterSelect s') = present (filterSelect s)
  ∧ present (searchInput s') = present (searchInput s)
  ∧ present (pagination s') = present (pagination s)
  ∧ present (prevBtn s') = present (prevBtn s)
  ∧ present (nextBtn s') = present (nextBtn s)
  ∧ present (pageInfo s') = present (pageInfo s).

(** The controls that [render] writes to are there when the pagination
    bar is. *)
Definition pager_complete (s : state) : bool :=
  negb (present (pagination s)) || (present (prevBtn s) && present (nextBtn s)).

(** The cards of page [k] of a subset. *)
Definition cards_of (fl : list record) (k : Z) : completion (list card) :=
  mapM buildCard (page_of fl k).

(** Sample states and records of the further properties. *)

Definition loaded_seven : state :=
  snd (load (Samples.answered Samples.seven) Samples.full_page).

Definition seven_records : list record := projects loaded_seven.

(** A page with a pagination bar but no previous-page control. *)
Definition broken_page : state :=
  initial (Some "all") (Some "") (Some false) None (Some false) (Some "").

(** A page that has the grid only. *)
Definition bare_page : state := initial None None None None None None.

Definition odd : record :=
  list_to_map [("title", JStr "Odd"); ("tech", JArr [num 3])].

Definition with_empty_id : list json :=
  [ Samples.obj [("id", JStr ""); ("title", JStr "One")] ].

(** A record of the data model that has an id and a title only. *)
Definition titled (id title : string) : record :=
  list_to_map [("id", JStr id); ("title", JStr title)].

(** Twenty records, on show on a page that has every element: four pages. *)
Definition twenty : list json :=
  (fun k : nat => Samples.obj [("title", JStr ("Project " +:+ pretty k))]) <$> seq 1 20.

Definition loaded_twenty : state :=
  snd (load (Samples.answered twenty) Samples.full_page).

End Listing.

(** * Properties *)

Import JS Projects Spec Samples Listing.

(** ** Strings and the page count *)

Lemma startsWith_prefix (s needle : string) :
  startsWith s needle = true ↔ ∃ b, s = needle +:+ b.
Proof.
  revert s. induction needle as [|a needle IH]; intros s; simpl.
  - split; [intros _; by exists s | intros _; reflexivity].
  - destruct s as [|b s].
    + split; [done | intros [? ?]; discriminate].
    + rewrite andb_true_iff, IH. split.
      * intros [Hab [t ->]]. apply Ascii.eqb_eq in Hab as ->. by exists t.
      * intros [t Ht]. injection Ht as -> ->. split; [apply Ascii.eqb_refl | by exists t].
Qed.

Lemma includes_occurs (s needle : string) :
  includes s needle = true ↔ ∃ a b, s = a +:+ needle +:+ b.
Proof.
  induction s as [|c s IH].
  - cbn [includes]. rewrite orb_false_r, startsWith_prefix. split.
    + intros [b ->]. by exists "", b.
    + intros [a [b H]]. destruct a; [by exists b | discriminate].
  - cbn [includes]. rewrite orb_true_iff, startsWith_prefix, IH. split.
    + intros [[b ->] | [a [b ->]]]; [by exists "", b | by exists (String c a), b].
    + intros [a [b H]]. destruct a as [|c' a].
      * left. by exists b.
      * right. injection H as -> ->. by exists a, b.
Qed.

(** Induction along a string of white space. *)
Lemma all_space_ind (P : string → Prop) :
  P "" →
  (∀ a r, space1 a = true → all_space r = true → P r → P (String a r)) →
  (∀ a b r, space1 a = false → space2 a b = true → all_space r = true → P r →
            P (String a (String b r))) →
  (∀ a b c r, space1 a = false → space2 a b = false → space3 a b c = true →
              all_space r = true → P r → P (String a (String b (String c r)))) →
  ∀ s, all_space s = true → P s.
Proof.
  intros H0 H1 H2 H3 s.
  assert (Hn : ∀ n s, (String.length s ≤ n)%nat → all_space s = true → P s).
  { clear s. induction n as [|n IH]; intros s Hl Hs.
    - destruct s; [done | simpl in Hl; lia].
    - destruct s as [|a r]; [done|]. cbn [all_space] in Hs. cbn [String.length] in Hl.
      destruct (space1 a) eqn:E1; [apply H1; [done | done | apply IH; [lia | done]]|].
      destruct r as [|b r2]; [done|]. cbn [String.length] in Hl.
      destruct (space2 a b) eqn:E2; [apply H2; [done | done | done | apply IH; [lia | done]]|].
      destruct r2 as [|c r3]; [done|]. cbn [String.length] in Hl.
      destruct (space3 a b c) eqn:E3; [|done].
      apply H3; [done | done | done | done | apply IH; [lia | done]]. }
  by apply (Hn (String.length s)).
Qed.

Lemma trimStart_all_space s : all_space s = true → trimStart s = "".
Proof.
  revert s. apply all_space_ind.
  - done.
  - intros a r H1 _ IH. cbn [trimStart]. by rewrite H1.
  - intros a b r H1 H2 _ IH. cbn [trimStart]. by rewrite H1, H2.
  - intros a b c r H1 H2 H3 _ IH. cbn [trimStart]. by rewrite H1, H2, H3.
Qed.

Lemma trim_all_space s : all_space s = true → trim s = "".
Proof. intros H. unfold trim. by rewrite trimStart_all_space. Qed.

Lemma ceil_div_bounds n d :
  0 < d → d * (ceil_div n d - 1) < n ≤ d * ceil_div n d.
Proof.
  intros Hd. unfold ceil_div.
  pose proof (Z.div_mod (- n) d ltac:(lia)).
  pose proof (Z.mod_pos_bound (- n) d Hd). nia.
Qed.

Lemma ceil_div_unique n d k :
  0 < d → d * (k - 1) < n ≤ d * k → ceil_div n d = k.
Proof.
  intros Hd Hk. pose proof (ceil_div_bounds n d Hd). nia.
Qed.

(** *** Appending *)

Lemma append_assoc (a b c : string) : (a +:+ b) +:+ c = a +:+ (b +:+ c).
Proof.
  induction a as [|x a IH]; [reflexivity|].
  change (String x ((a +:+ b) +:+ c) = String x (a +:+ (b +:+ c))). by rewrite IH.
Qed.

Lemma append_empty_r (s : string) : s +:+ "" = s.
Proof.
  induction s as [|c s IH]; [reflexivity|].
  change (String c (s +:+ "") = String c s). by rewrite IH.
Qed.



(** *** White space *)






(** *** Letters and their case *)


Lemma lower_char_code c :
  nat_of_ascii (lower_char c)
  = if capital c then (nat_of_ascii c + 32)%nat else nat_of_ascii c.
Proof.
  unfold lower_char, capital.
  destruct ((65 <=? nat_of_ascii c)%nat && (nat_of_ascii c <=? 90)%nat) eqn:E; [|done].
  apply andb_true_iff in E as [H1 H2]. apply Nat.leb_le in H1, H2.
  apply nat_ascii_embedding. lia.
Qed.



Lemma toLowerCase_app a b : toLowerCase (a +:+ b) = toLowerCase a +:+ toLowerCase b.
Proof.
  induction a as [|x a IH]; [reflexivity|].
  change (String (lower_char x) (toLowerCase (a +:+ b))
          = String (lower_char x) (toLowerCase a +:+ toLowerCase b)). by rewrite IH.
Qed.



(** *** Lists *)

Lemma nonempty_length {A} (l : list A) : (0 <? length l)%nat = true → l ≠ [].
Proof. by destruct l. Qed.

(** ** render *)

Ltac js_unfold :=
  unfold render, update_pagination, hide_pagination, null_write, throw, lift,
    gets, modify, skip, mbind, js_bind, mret, js_ret.

(** render on an empty subset *)
Lemma render_empty s :
  filtered s = [] →
  render s = (Normal tt,
              match pagination s with
              | Some _ => set_pagination (Some true) (set_grid EmptyState s)
              | None => set_grid EmptyState s
              end).
Proof.
  intros H. js_unfold. simpl. rewrite H. simpl.
  destruct (pagination s); reflexivity.
Qed.

Lemma render_vars s :
  let s' := snd (render s) in
  projects s' = projects s ∧ filtered s' = filtered s ∧
  fetches s' = fetches s ∧ console s' = console s ∧
  filterSelect s' = filterSelect s ∧ searchInput s' = searchInput s ∧
  timer s' = timer s ∧
  totalPages s' = (if (length (filtered s) =? 0)%nat then totalPages s
                   else pages (length (filtered s))) ∧
  currentPage s' = (if (length (filtered s) =? 0)%nat then currentPage s
                    else Z.min (currentPage s) (pages (length (filtered s)))).
Proof.
  destruct s as [ps fl cp tp g gl fs si pg pv nx pi fo co fe ti].
  js_unfold. simpl. destruct (length fl =? 0)%nat; simpl.
  - destruct pg; simpl; repeat split; reflexivity.
  - destruct (mapM buildCard _) as [cards|e]; simpl; [|repeat split; reflexivity].
    destruct pg, pv, nx, pi; simpl; repeat split; reflexivity.
Qed.

(** ** The tag test *)

Lemma mapM_lower_strings ss :
  mapM lower_element (JStr <$> ss) = Normal (toLowerCase <$> ss).
Proof.
  induction ss as [|s ss IH]; [done|].
  cbn. rewrite IH. done.
Qed.

Lemma mapM_lower_normal l ls :
  mapM lower_element l = Normal ls →
  ∃ ss, l = JStr <$> ss ∧ ls = toLowerCase <$> ss.
Proof.
  revert ls. induction l as [|t l IH]; intros ls.
  - intros [= <-]. by exists [].
  - cbn. destruct t as [| | |s| |]; cbn; try done.
    destruct (mapM lower_element l) as [ls'|e]; cbn; [|done].
    intros [= <-]. destruct (IH ls' eq_refl) as [ss [-> ->]]. by exists (s :: ss).
Qed.

Lemma array_includes_elem l s : array_includes l s = true ↔ JStr s ∈ l.
Proof.
  unfold array_includes. rewrite existsb_exists. split.
  - intros [x [Hin Hx]]. destruct x; simpl in Hx; try done.
    apply String.eqb_eq in Hx as ->. by apply list_elem_of_In.
  - intros Hin. exists (JStr s). split; [by apply list_elem_of_In|]. simpl. apply String.eqb_refl.
Qed.

Lemma tags_match_collection tech p :
  tags_match tech p = true ↔ JStr tech ∈ collection (p !! "tags").
Proof.
  unfold tags_match, collection. destruct (p !! "tags") as [[| | |s| |]|]; simpl;
    rewrite ?array_includes_elem; try done;
    try (split; [done | intros H; apply list_elem_of_singleton in H; discriminate]).
  - rewrite String.eqb_eq. split; [intros ->; by apply list_elem_of_singleton|].
    intros H. apply list_elem_of_singleton in H. by injection H.
  - split; [done|]. intros H. by apply not_elem_of_nil in H.
Qed.

Lemma tech_match_true tech p :
  tech_match tech p = Normal true ↔
  ∃ ss, p !! "tech" = Some (JArr (JStr <$> ss)) ∧ tech ∈ toLowerCase <$> ss.
Proof.
  unfold tech_match. split.
  - destruct (p !! "tech") as [[| | | |l|]|]; cbn; try done.
    destruct (mapM lower_element l) as [ls|e] eqn:E; cbn; [|done].
    intros [= H]. apply bool_decide_eq_true in H.
    destruct (mapM_lower_normal _ _ E) as [ss [-> ->]]. by exists ss.
  - intros [ss [-> Hin]]. rewrite mapM_lower_strings. cbn.
    by rewrite bool_decide_eq_true_2.
Qed.

(** C2 (amended). A record passes the tag test exactly when the sentinel
    ["all"] is selected, or its tags (an array, or a single value) contain
    the selected tag as it is written, or its tech is an array of strings
    one of which, lower-cased, is the selected tag as it is written. *)
Theorem okTech_passes tech p :
  okTech tech p = Normal true ↔
    tech = "all"
    ∨ JStr tech ∈ collection (p !! "tags")
    ∨ ∃ ss, p !! "tech" = Some (JArr (JStr <$> ss)) ∧ tech ∈ toLowerCase <$> ss.
Proof.
  unfold okTech. rewrite <- tags_match_collection, <- tech_match_true.
  destruct (String.eqb tech "all") eqn:Hall.
  - apply String.eqb_eq in Hall. split; [by left | done].
  - apply String.eqb_neq in Hall. destruct (tags_match tech p).
    + split; [by right; left | done].
    + split; [by right; right | intros [?|[?|?]]; done].
Qed.

Lemma toLowerCase_idem s : toLowerCase (toLowerCase s) = toLowerCase s.
Proof.
  induction s as [|c s IH]; [done|]. simpl. f_equal; [|done].
  unfold lower_char.
  destruct ((65 <=? nat_of_ascii c)%nat && (nat_of_ascii c <=? 90)%nat) eqn:E.
  - apply andb_true_iff in E as [H1 H2]. apply Nat.leb_le in H1, H2.
    rewrite nat_ascii_embedding by lia.
    replace ((65 <=? nat_of_ascii c + 32)%nat && (nat_of_ascii c + 32 <=? 90)%nat) with false; [done|].
    symmetry. apply andb_false_iff. right. apply Nat.leb_gt. lia.
  - by rewrite E.
Qed.

(** For a selected tag written in lower case the test on [tech] ignores case. *)
Lemma tech_match_lower_tag (tech : string) (ss : list string) :
  toLowerCase tech = tech →
  tech ∈ toLowerCase <$> ss ↔ ∃ t, t ∈ ss ∧ toLowerCase t = toLowerCase tech.
Proof.
  intros H. rewrite H. rewrite list_elem_of_fmap. split.
  - intros [t [-> Ht]]. by exists t.
  - intros [t [Ht Hl]]. by exists t.
Qed.

(** C2 fails as stated: with ["React"] selected, a record whose tech holds
    ["React"] does not pass, since only the tech values are lower-cased. *)
Lemma okTech_case_sensitive_tech :
  okTech "React" shop = Normal false ∧ tag_passes "React" shop
  ∧ ¬ (okTech "React" shop = Normal true ↔ tag_passes "React" shop).
Proof.
  assert (H1 : okTech "React" shop = Normal false) by (vm_compute; reflexivity).
  assert (H2 : tag_passes "React" shop).
  { right; right. exists "React". split; [|done].
    replace (shop !! "tech") with (Some (JArr [JStr "React"; JStr "Node"])) by (vm_compute; reflexivity).
    simpl. apply list_elem_of_here. }
  split; [done|]. split; [done|]. intros [_ H]. specialize (H H2). rewrite H1 in H. discriminate.
Qed.

(** ** The filter *)

Section filterM.
Context {A : Type} (f : A → completion bool).

Lemma filterM_sublist l kept : filterM f l = Normal kept → kept `sublist_of` l.
Proof.
  revert kept. induction l as [|x l IH]; intros kept; cbn.
  - intros [= <-]. constructor.
  - destruct (f x) as [b|e]; cbn; [|done].
    destruct (filterM f l) as [rest|e]; cbn; [|done].
    intros [= <-]. destruct b; [apply sublist_skip | apply sublist_cons]; by apply IH.
Qed.

Lemma filterM_normal l :
  Forall (fun x => is_normal (f x) = true) l → is_normal (filterM f l) = true.
Proof.
  induction 1 as [|x l Hx _ IH]; cbn; [done|].
  destruct (f x); [|done]. cbn. by destruct (filterM f l).
Qed.

Lemma filterM_throws l e :
  filterM f l = Throw e → Exists (fun x => f x = Throw e) l.
Proof.
  induction l as [|x l IH]; cbn; [done|].
  destruct (f x) as [b|e'] eqn:E; cbn.
  - destruct (filterM f l) as [rest|e'']; cbn; [done|].
    intros [= ->]. apply Exists_cons_tl. by apply IH.
  - intros [= ->]. by apply Exists_cons_hd.
Qed.

Lemma filterM_elem l kept x :
  filterM f l = Normal kept → (x ∈ kept ↔ x ∈ l ∧ f x = Normal true).
Proof.
  revert kept. induction l as [|y l IH]; intros kept; cbn.
  - intros [= <-]. split; [intros H | intros [H _]]; by apply not_elem_of_nil in H.
  - destruct (f y) as [b|e] eqn:E; cbn; [|done].
    destruct (filterM f l) as [rest|e]; cbn; [|done].
    intros [= <-]. specialize (IH rest eq_refl).
    destruct b; rewrite ?elem_of_cons, IH, ?elem_of_cons.
    + split; [intros [->|[? ?]]; auto | intros [[->|?] ?]; auto].
    + split; [intros [? ?]; auto | intros [[->|?] ?]; [congruence | auto]].
Qed.
End filterM.

Lemma filterM_ext {A} (f g : A → completion bool) l :
  (∀ x, f x = g x) → filterM f l = filterM g l.
Proof. intros H. induction l as [|x l IH]; cbn; [done|]. by rewrite H, IH. Qed.

(** In a subsequence, two elements keep the order they have in the whole. *)
Lemma sublist_order {A} (k l : list A) :
  k `sublist_of` l →
  ∀ i j a b, (i < j)%nat → k !! i = Some a → k !! j = Some b →
  ∃ i' j', (i' < j')%nat ∧ l !! i' = Some a ∧ l !! j' = Some b.
Proof.
  induction 1 as [|x k l Hs IH|x k l Hs IH]; intros i j a b Hij Hi Hj.
  - done.
  - destruct j as [|j]; [lia|]. destruct i as [|i]; simpl in *.
    + injection Hi as ->.
      apply list_elem_of_lookup_2 in Hj.
      eapply elem_of_sublist in Hj; [|done].
      apply list_elem_of_lookup_1 in Hj as [j' Hj'].
      exists 0%nat, (S j'). split; [lia|done].
    + destruct (IH i j a b ltac:(lia) Hi Hj) as (i' & j' & ? & ? & ?).
      exists (S i'), (S j'). split; [lia|done].
  - destruct (IH i j a b Hij Hi Hj) as (i' & j' & ? & ? & ?).
    exists (S i'), (S j'). split; [lia|done].
Qed.

Lemma okTech_typed tech p : tech_typed p = true → is_normal (okTech tech p) = true.
Proof.
  unfold tech_typed, okTech, tech_match.
  destruct (String.eqb tech "all"); [done|]. destruct (tags_match tech p); [done|].
  destruct (p !! "tech") as [[| | | |l|]|]; try done.
  intros H. assert (∃ ss, l = JStr <$> ss) as [ss ->].
  { induction l as [|t l IH]; [by exists []|]. simpl in H.
    apply andb_true_iff in H as [Ht Hl]. destruct (IH Hl) as [ss ->].
    destruct t; try done. by exists (s :: ss). }
  by rewrite mapM_lower_strings.
Qed.

Lemma okTech_throws_untyped tech p e : okTech tech p = Throw e → tech_typed p = false.
Proof.
  intros H. destruct (tech_typed p) eqn:E; [|done].
  apply (okTech_typed tech) in E. by rewrite H in E.
Qed.

(** *** Conversions to a string *)

Lemma join_concat sep (xs : list string) : join sep xs = String.concat sep xs.
Proof.
  induction xs as [|x xs IH]; [done|]. destruct xs as [|y xs]; [done|].
  cbn [join String.concat]. cbn [join String.concat] in IH. by rewrite IH.
Qed.

Lemma toString_array l : toString (JArr l) = array_join "," l.
Proof.
  unfold array_join. cbn [toString].
  assert (H : (fix elements (l0 : list json) : completion (list string) :=
                 match l0 with
                 | [] => Normal []
                 | e :: l' =>
                     x ← match e with JNull => Normal "" | _ => toString e end;
                     xs ← elements l';
                     Normal (x :: xs)
                 end) l = mapM element_text l).
  { induction l as [|e l IH]; [done|]. cbn [mapM]. rewrite <- IH. reflexivity. }
  by rewrite H.
Qed.

Lemma mapM_element_text_strings l :
  forallb is_string l = true → mapM element_text l = Normal (text_of <$> l).
Proof.
  induction l as [|e l IH]; [done|]. cbn [forallb]. intros [He Hl]%andb_true_iff.
  destruct e; try discriminate. cbn. rewrite (IH Hl). done.
Qed.

Lemma array_join_strings sep l :
  forallb is_string l = true → array_join sep l = Normal (String.concat sep (text_of <$> l)).
Proof.
  intros H. unfold array_join. rewrite (mapM_element_text_strings l H). cbn.
  by rewrite join_concat.
Qed.

(** A conversion that throws throws a TypeError. *)
Lemma mapM_TypeError {A B} (f : A → completion B) l e :
  (∀ x e', f x = Throw e' → ∃ msg, e' = TypeError msg) →
  mapM f l = Throw e → ∃ msg, e = TypeError msg.
Proof.
  intros Hf. induction l as [|x l IH]; [done|]. cbn.
  destruct (f x) as [y|e'] eqn:E; cbn; [|intros [= <-]; by eapply Hf].
  destruct (mapM f l) as [ys|e'']; cbn; [done|]. intros [= <-]. by apply IH.
Qed.

(** Induction on a JSON value, through the elements of an array. *)
Lemma json_induction (P : json → Prop) :
  P JNull → (∀ b, P (JBool b)) → (∀ n t, P (JNum n t)) → (∀ s, P (JStr s)) →
  (∀ l, Forall P l → P (JArr l)) → (∀ m, P (JObj m)) →
  ∀ j, P j.
Proof.
  intros Hnull Hbool Hnum Hstr Harr Hobj. fix IH 1.
  intros [|b|n t|s|l|m]; [exact Hnull | apply Hbool | apply Hnum | apply Hstr | | apply Hobj].
  apply Harr. revert l. fix IHl 1. intros [|x l]; constructor; [apply IH | apply IHl].
Qed.

Lemma toString_TypeError j : ∀ e, toString j = Throw e → ∃ msg, e = TypeError msg.
Proof.
  induction j as [|b|n t|s|l IH|m] using json_induction; intros e; try done.
  - by destruct b.
  - rewrite toString_array. unfold array_join.
    destruct (mapM element_text l) as [parts|e'] eqn:E; cbn; [done|]. intros [= <-].
    revert e' E. induction IH as [|x l Hx _ IHl]; intros e' E; [done|].
    cbn in E. destruct (element_text x) as [y|e1] eqn:Ex; cbn in E.
    + destruct (mapM element_text l) as [ys|e2]; cbn in E; [done|].
      injection E as <-. by apply IHl.
    + injection E as <-. destruct x; try done; by apply Hx.
  - cbn. destruct (m !! "toString"); [|done]. intros [= <-]. by eexists.
Qed.

Lemma element_text_TypeError x e : element_text x = Throw e → ∃ msg, e = TypeError msg.
Proof. destruct x; try done; apply toString_TypeError. Qed.

Lemma array_join_TypeError sep l e : array_join sep l = Throw e → ∃ msg, e = TypeError msg.
Proof.
  unfold array_join. destruct (mapM element_text l) as [parts|e'] eqn:E; cbn; [done|].
  intros [= <-]. eapply mapM_TypeError; [|exact E]. apply element_text_TypeError.
Qed.

Lemma toString_method_TypeError j e :
  toString_method j = Throw e → ∃ msg, e = TypeError msg.
Proof.
  destruct j; try apply toString_TypeError.
  cbn. destruct (_ !! _); [|done]. intros [= <-]. by eexists.
Qed.

Lemma template_TypeError v e : template v = Throw e → ∃ msg, e = TypeError msg.
Proof. destruct v; [apply toString_TypeError | done]. Qed.

Lemma or_empty_TypeError v e : or_empty v = Throw e → ∃ msg, e = TypeError msg.
Proof.
  unfold or_empty. destruct v as [j|]; [|done].
  destruct (truthy (Some j)); [apply toString_TypeError | done].
Qed.

Lemma or_empty_method_TypeError v e :
  or_empty_method v = Throw e → ∃ msg, e = TypeError msg.
Proof.
  unfold or_empty_method. destruct v as [j|]; [|done].
  destruct (truthy (Some j)); [apply toString_method_TypeError | done].
Qed.

Lemma hay_TypeError p e : hay p = Throw e → ∃ msg, e = TypeError msg.
Proof.
  unfold hay.
  destruct (template (p !! "title")) eqn:E1; cbn; [|intros [= <-]; by eapply template_TypeError].
  destruct (or_empty (p !! "description")) eqn:E2; cbn;
    [|intros [= <-]; by eapply or_empty_TypeError].
  destruct (or_empty_method (p !! "tech")) eqn:E3; cbn;
    [|intros [= <-]; by eapply or_empty_method_TypeError].
  destruct (or_empty_method (p !! "tags")) eqn:E4; cbn;
    [done|intros [= <-]; by eapply or_empty_method_TypeError].
Qed.

(** *** The haystack of a record of the data model *)

Lemma or_empty_text v : optional_text v = true → or_empty v = Normal (field_text v).
Proof.
  destruct v as [[| | |s| |]|]; try done. intros _. unfold or_empty. cbn.
  destruct (String.eqb_spec s ""); [by subst | done].
Qed.

Lemma or_empty_method_text v :
  text_or_texts v = true → or_empty_method v = Normal (field_text v).
Proof.
  destruct v as [[| | |s|l|]|]; try done; intros H; unfold or_empty_method.
  - cbn. destruct (String.eqb_spec s ""); [by subst | done].
  - cbn [truthy]. change (toString_method (JArr l)) with (toString (JArr l)).
    rewrite toString_array. by apply array_join_strings.
Qed.

Lemma hay_text p : text_typed p = true → hay p = Normal (toLowerCase (record_text p)).
Proof.
  unfold text_typed. intros [[[H1 H2]%andb_true_iff H3]%andb_true_iff H4]%andb_true_iff.
  unfold hay, record_text.
  rewrite (or_empty_text _ H2), (or_empty_method_text _ H3), (or_empty_method_text _ H4).
  destruct (p !! "title") as [[| | |t| |]|]; try done.
Qed.

Lemma text_typed_tech p : text_typed p = true → tech_typed p = true.
Proof.
  unfold text_typed, tech_typed. intros [[_ H3]%andb_true_iff _]%andb_true_iff.
  by destruct (p !! "tech") as [[| | | | |]|].
Qed.

(** *** The callback *)


Lemma keep_empty_query tech p : keep tech "" p = okTech tech p.
Proof. unfold keep. by destruct (okTech tech p) as [[|]|]. Qed.

Lemma okText_typed query p : text_typed p = true → is_normal (okText query p) = true.
Proof.
  intros H. unfold okText. destruct (String.eqb query ""); [done|]. by rewrite (hay_text p H).
Qed.

Lemma keep_typed tech query p : text_typed p = true → is_normal (keep tech query p) = true.
Proof.
  intros H. pose proof (okTech_typed tech p (text_typed_tech p H)) as Ht.
  pose proof (okText_typed query p H) as Hq. unfold keep.
  destruct (okTech tech p) as [[|]|]; done.
Qed.

Lemma okTech_TypeError tech p e : okTech tech p = Throw e → ∃ msg, e = TypeError msg.
Proof.
  unfold okTech. destruct (String.eqb tech "all"); [done|].
  destruct (tags_match tech p); [done|]. unfold tech_match.
  destruct (p !! "tech") as [[| | | |l|]|]; try done.
  destruct (mapM lower_element l) as [ls|e'] eqn:E; cbn; [done|]. intros [= <-].
  eapply mapM_TypeError; [|exact E]. intros x e1. destruct x; cbn; intros [= <-]; by eexists.
Qed.

Lemma okText_TypeError query p e : okText query p = Throw e → ∃ msg, e = TypeError msg.
Proof.
  unfold okText. destruct (String.eqb query ""); [done|].
  destruct (hay p) eqn:E; cbn; [done|]. intros [= <-]. by eapply hay_TypeError.
Qed.

Lemma keep_TypeError tech query p e : keep tech query p = Throw e → ∃ msg, e = TypeError msg.
Proof.
  unfold keep. destruct (okTech tech p) as [[|]|e'] eqn:E; cbn.
  - apply okText_TypeError.
  - done.
  - intros [= <-]. by eapply okTech_TypeError.
Qed.

Lemma keep_true tech query p :
  keep tech query p = Normal true
  ↔ okTech tech p = Normal true ∧ okText query p = Normal true.
Proof.
  unfold keep. destruct (okTech tech p) as [[|]|]; cbn.
  - split; [done | by intros [_ ?]].
  - split; [done | intros [? _]; done].
  - split; [done | intros [? _]; done].
Qed.

Lemma applyFilters_run s :
  applyFilters s =
    match filterM (keep (selected_tag (filterSelect s)) (search_query (searchInput s)))
                  (projects s) with
    | Normal kept => render (set_currentPage 1 (set_filtered kept s))
    | Throw e => (Throw e, s)
    end.
Proof.
  unfold applyFilters, lift, gets, modify, mbind, js_bind. simpl.
  destruct (filterM _ _); reflexivity.
Qed.

(** ** buildCard *)

Lemma mapM_normal {A B} (f : A → completion B) l :
  (∀ x, x ∈ l → is_normal (f x) = true) → is_normal (mapM f l) = true.
Proof.
  induction l as [|x l IH]; intros H; [done|]. cbn [mapM].
  pose proof (H x ltac:(left)) as Hx. destruct (f x); [|done]. cbn.
  specialize (IH ltac:(intros y Hy; apply H; by right)). by destruct (mapM f l).
Qed.

Lemma mapM_length {A B} (f : A → completion B) l ys :
  mapM f l = Normal ys → length ys = length l.
Proof.
  revert ys. induction l as [|x l IH]; intros ys; cbn [mapM].
  - by intros [= <-].
  - destruct (f x); [|done]. cbn. destruct (mapM f l) eqn:E; [|done]. cbn.
    intros [= <-]. cbn. by rewrite (IH _ eq_refl).
Qed.

(** A record of the data model has a card. *)
Lemma buildCard_conforms p : conforms p = true → is_normal (buildCard p) = true.
Proof.
  unfold conforms, text_typed. intros H.
  repeat match goal with
         | H : _ && _ = true |- _ => apply andb_true_iff in H as [? ?]
         end.
  unfold buildCard.
  destruct (p !! "id") as [[]|]; try done.
  destruct (p !! "title") as [[]|]; try done.
  destruct (p !! "imageAlt") as [[| | |a| |]|]; try done;
  destruct (p !! "image") as [[| | |i| |]|]; try done;
  destruct (p !! "description") as [[| | |d| |]|]; try done;
  destruct (p !! "detailsUrl") as [[| | |u| |]|]; try done;
  destruct (p !! "sourceUrl") as [[| | |v| |]|]; try done;
  destruct (p !! "tech") as [[| | |t|l|]|]; try done;
  try rewrite (array_join_strings _ l) by assumption;
  cbn;
  repeat match goal with
         | |- context [negb (String.eqb ?x "")] => destruct (negb (String.eqb x "")); cbn
         end; reflexivity.
Qed.

Lemma buildCard_TypeError p e : buildCard p = Throw e → ∃ msg, e = TypeError msg.
Proof.
  unfold buildCard.
  repeat match goal with
  | |- (Throw _ = Throw _) → _ => intros [= <-]
  | |- (Normal _ = Throw _) → _ => discriminate
  | |- (mbind _ ?c = Throw _) → _ =>
      let E := fresh "E" in destruct c eqn:E; cbn [mbind completion_bind]
  | |- ((_ ← ?c; _) = Throw _) → _ =>
      let E := fresh "E" in destruct c eqn:E; cbn [mbind completion_bind]
  end.
  all: repeat match goal with
  | H : (if ?b then _ else _) = Throw _ |- _ => destruct b
  | H : match ?v with Some _ => _ | None => _ end = Throw _ |- _ => destruct v
  | H : (_ ← ?c; _) = Throw _ |- _ =>
      let E := fresh "E" in destruct c eqn:E; cbn [mbind completion_bind] in H
  | H : Normal _ = Throw _ |- _ => discriminate H
  | H : Throw _ = Throw _ |- _ => injection H as <-
  | H : template _ = Throw _ |- _ => exact (template_TypeError _ _ H)
  | H : attribute _ = Throw _ |- _ => exact (toString_TypeError _ _ H)
  | H : toString _ = Throw _ |- _ => exact (toString_TypeError _ _ H)
  | H : array_join _ _ = Throw _ |- _ => exact (array_join_TypeError _ _ _ H)
  | H : createText ?v = Throw _ |- _ =>
      unfold createText in H; destruct v as [[]|]
  | H : match ?j with JNull => _ | _ => _ end = Throw _ |- _ => destruct j
  end.
Qed.

Lemma cards_conform l :
  forallb conforms l = true → is_normal (mapM buildCard l) = true.
Proof.
  intros H. apply mapM_normal. intros p Hp. apply buildCard_conforms.
  rewrite forallb_forall in H. apply H. by apply list_elem_of_In.
Qed.

Lemma sublist_forallb {A} (f : A → bool) (k l : list A) :
  k `sublist_of` l → forallb f l = true → forallb f k = true.
Proof.
  intros Hs H. rewrite forallb_forall in *. intros x Hx. apply H.
  apply list_elem_of_In. eapply elem_of_sublist; [|exact Hs]. by apply list_elem_of_In.
Qed.

Lemma slice_sublist {A} (l : list A) a b : slice l a b `sublist_of` l.
Proof.
  unfold slice. etrans; [apply sublist_take | apply sublist_drop].
Qed.

Lemma page_conforms l k :
  forallb conforms l = true → is_normal (cards_of l k) = true.
Proof.
  intros H. apply cards_conform. eapply sublist_forallb; [|exact H].
  apply slice_sublist.
Qed.

(** ** Pages *)

Lemma slice_take_drop {A} (l : list A) (a k : nat) :
  slice l (Z.of_nat a) (Z.of_nat a + Z.of_nat k) = take k (drop a l).
Proof.
  unfold slice, slice_index.
  destruct (Z.ltb_spec (Z.of_nat a) 0) as [?|_]; [lia|].
  destruct (Z.ltb_spec (Z.of_nat a + Z.of_nat k) 0) as [?|_]; [lia|].
  destruct (decide (a ≤ length l)%nat) as [Ha|Ha].
  - rewrite (Z.min_l (Z.of_nat a)) by lia. rewrite Nat2Z.id.
    destruct (decide (a + k ≤ length l)%nat) as [Hk|Hk].
    + rewrite Z.min_l by lia. f_equal. lia.
    + rewrite Z.min_r by lia.
      rewrite (take_ge (drop a l) k) by (rewrite length_drop; lia).
      rewrite take_ge by (rewrite length_drop; lia). done.
  - rewrite !Z.min_r by lia. rewrite Nat2Z.id, !drop_ge by lia. by rewrite !take_nil.
Qed.

(** The records of a page, counted from the start of the subset. *)
Lemma page_of_take_drop (fl : list record) (k : nat) :
  page_of fl (Z.of_nat (S k)) = take 6 (drop (6 * k) fl).
Proof.
  unfold page_of.
  replace ((Z.of_nat (S k) - 1) * PER_PAGE) with (Z.of_nat (6 * k)) by (unfold PER_PAGE; lia).
  change PER_PAGE with (Z.of_nat 6). apply slice_take_drop.
Qed.

Lemma page_of_first (fl : list record) : page_of fl 1 = take 6 fl.
Proof. exact (page_of_take_drop fl 0). Qed.

(** ** render, with its cards *)

(** render on a subset that is not empty, step by step. *)
Lemma render_page s :
  filtered s ≠ [] →
  let tp := pages (length (filtered s)) in
  let cp := Z.min (currentPage s) tp in
  let s1 := set_currentPage cp (set_totalPages tp (set_grid Blank s)) in
  render s =
    match cards_of (filtered s) cp with
    | Throw e => (Throw e, s1)
    | Normal cards =>
        (update_pagination cp tp;;
         modify (set_gridLabel
           (Some (pretty (length (filtered s)) +:+ " projects. Showing "
                  +:+ pretty (length (page_of (filtered s) cp)) +:+ " on this page."))))
          (set_grid (Cards cards) s1)
    end.
Proof.
  intros Hne. destruct s as [ps fl cp tp g gl fs si pg pv nx pi fo co fe ti].
  simpl in Hne. destruct fl as [|p fl]; [done|].
  unfold render, cards_of, page_of, pages, lift, gets, modify, mbind, js_bind. simpl.
  destruct (mapM buildCard _); reflexivity.
Qed.

Lemma render_grid s :
  filtered s ≠ [] →
  grid (snd (render s)) =
    match cards_of (filtered s)
            (Z.min (currentPage s) (pages (length (filtered s)))) with
    | Normal cards => Cards cards
    | Throw _ => Blank
    end.
Proof.
  intros Hne. rewrite (render_page s Hne). cbv zeta.
  destruct (cards_of _ _) as [cards|e]; [|reflexivity].
  destruct s as [ps fl cp tp g gl fs si pg pv nx pi fo co fe ti].
  unfold update_pagination, null_write, throw, modify, skip, mbind, js_bind, mret, js_ret.
  simpl. destruct pg, pv, nx, pi; reflexivity.
Qed.

Lemma render_TypeError s e : fst (render s) = Throw e → ∃ msg, e = TypeError msg.
Proof.
  destruct (decide (filtered s = [])) as [H|H].
  - rewrite (render_empty s H). discriminate.
  - rewrite (render_page s H). cbv zeta. unfold cards_of.
    destruct (mapM buildCard _) as [cards|e'] eqn:E.
    + destruct s as [ps fl cp tp g gl fs si pg pv nx pi fo co fe ti].
      unfold update_pagination, null_write, throw, modify, skip, mbind, js_bind, mret, js_ret.
      simpl. destruct pg, pv, nx, pi; simpl; intros [= <-] || discriminate; by eexists.
    + simpl. intros [= <-]. apply mapM_TypeError in E; [done|].
      intros x e0. apply buildCard_TypeError.
Qed.

(** ** applyFilters *)

Lemma filter_of_typed s :
  forallb text_typed (projects s) = true → ∃ kept, filter_of s = Normal kept.
Proof.
  intros H. unfold filter_of.
  pose proof (filterM_normal (keep (selected_tag (filterSelect s)) (search_query (searchInput s))) (projects s)) as Hn.
  destruct (filterM _ _) as [kept|e]; [by exists kept|].
  exfalso. assert (is_normal (Throw (A:=list record) e) = true); [|done].
  apply Hn. apply Forall_forall. intros p Hp. apply keep_typed.
  rewrite forallb_forall in H. apply H. by apply list_elem_of_In.
Qed.

(** With no query, the tag test is the whole callback. *)
Lemma filter_blank_typed tech ps :
  forallb tech_typed ps = true → ∃ kept, filterM (keep tech "") ps = Normal kept.
Proof.
  intros H. pose proof (filterM_normal (keep tech "") ps) as Hn.
  destruct (filterM _ _) as [kept|e]; [by exists kept|].
  exfalso. assert (is_normal (Throw (A:=list record) e) = true); [|done].
  apply Hn. apply Forall_forall. intros p Hp. rewrite keep_empty_query.
  apply okTech_typed. rewrite forallb_forall in H. apply H. by apply list_elem_of_In.
Qed.

(** C4. The subset that the filter step stores is a subsequence of the
    catalog: any two records of it stand in the catalog in the same order.
    The catalog itself is left as it is.  When the callback throws, the
    step stores nothing and the state is the one before; it does not throw
    over a catalog whose searched fields are typed as the data model
    says. *)
Theorem applyFilters_keeps_order s :
  let s' := snd (applyFilters s) in
  projects s' = projects s
  ∧ match filter_of s with
    | Normal kept =>
        filtered s' = kept ∧ kept `sublist_of` projects s ∧
        ∀ i j a b, (i < j)%nat → kept !! i = Some a → kept !! j = Some b →
          ∃ i' j', (i' < j')%nat ∧ projects s !! i' = Some a ∧ projects s !! j' = Some b
    | Throw _ => s' = s
    end
  ∧ (forallb text_typed (projects s) = true → is_normal (filter_of s) = true).
Proof.
  intros s'. subst s'. rewrite applyFilters_run. fold (filter_of s).
  split; [|split].
  - destruct (filter_of s) as [kept|e]; [|done].
    by pose proof (render_vars (set_currentPage 1 (set_filtered kept s))) as (Hp & _).
  - destruct (filter_of s) as [kept|e] eqn:E; [|done].
    pose proof (render_vars (set_currentPage 1 (set_filtered kept s))) as (_ & Hf & _).
    split; [exact Hf|].
    pose proof (filterM_sublist _ _ _ E) as Hs. split; [done|]. by apply sublist_order.
  - intros Ht. destruct (filter_of_typed s Ht) as [kept Hk]. by rewrite Hk.
Qed.

Lemma applyFilters_keeps_order_witness :
  let s := set_searchInput (Some "eta") loaded_seven in
  is_normal (filter_of s) = true
  ∧ filtered (snd (applyFilters s)) `sublist_of` projects s.
Proof.
  intros s.
  assert (Ht : forallb text_typed (projects s) = true) by (vm_compute; reflexivity).
  pose proof (applyFilters_keeps_order s) as H. cbv zeta in H.
  destruct H as (_ & H & Hn). specialize (Hn Ht). split; [exact Hn|].
  destruct (filter_of s) as [kept|]; [|discriminate Hn].
  destruct H as (Hf & Hs & _). rewrite Hf. exact Hs.
Defined.

(** C5. Whatever the current page was, and whatever tag and query are set,
    recomputing the filters over a catalog whose searched fields are typed
    as the data model says stores the new subset, sets the current page to
    1 and then renders: the current page is still 1 afterwards, within the
    range of the new subset, and the grid shows the first page of the new
    subset (the placeholder when it is empty; the cards of its first six
    records, which can all be built when the catalog is one of the data
    model). *)
Theorem applyFilters_first_page s :
  forallb text_typed (projects s) = true →
  let s' := snd (applyFilters s) in
  ∃ kept,
    filter_of s = Normal kept
    ∧ applyFilters s = render (set_currentPage 1 (set_filtered kept s))
    ∧ filtered s' = kept
    ∧ currentPage s' = 1
    ∧ 1 ≤ currentPage s' ≤ Z.max 1 (ceil_div (Z.of_nat (length kept)) PER_PAGE)
    ∧ grid s' = match kept with
                | [] => EmptyState
                | _ => match mapM buildCard (take 6 kept) with
                       | Normal cards => Cards cards
                       | Throw _ => Blank
                       end
                end
    ∧ (forallb conforms (projects s) = true →
       is_normal (mapM buildCard (take 6 kept)) = true).
Proof.
  intros Ht s'. subst s'.
  destruct (filter_of_typed s Ht) as [kept Hk]. exists kept.
  split; [exact Hk|]. rewrite applyFilters_run. fold (filter_of s). rewrite Hk.
  split; [reflexivity|].
  set (s1 := set_currentPage 1 (set_filtered kept s)).
  pose proof (render_vars s1) as (_ & Hf & _ & _ & _ & _ & _ & _ & Hc).
  split; [exact Hf|].
  assert (H1 : currentPage (snd (render s1)) = 1).
  { rewrite Hc. simpl. destruct (length kept =? 0)%nat; [done|]. unfold pages. lia. }
  split; [exact H1|]. split; [rewrite H1; lia|].
  split.
  - destruct kept as [|p kept'] eqn:Ek.
    + rewrite (render_empty s1 eq_refl). cbn [snd]. by destruct (pagination s1).
    + rewrite (render_grid s1) by done.
      change (filtered s1) with (p :: kept'). change (currentPage s1) with 1.
      replace (1 `min` pages (length (p :: kept'))) with 1 by (unfold pages; lia).
      unfold cards_of. by rewrite page_of_first.
  - intros Hc'. rewrite <- page_of_first. apply page_conforms.
    apply (sublist_forallb _ kept (projects s)); [|done].
    exact (filterM_sublist _ _ _ Hk).
Qed.

Lemma applyFilters_first_page_witness :
  let s := run [ClickNext] (snd (load (answered seven) full_page)) in
  currentPage s = 2 ∧ currentPage (snd (applyFilters s)) = 1.
Proof.
  intros s.
  assert (Ht : forallb text_typed (projects s) = true) by (vm_compute; reflexivity).
  split; [vm_compute; reflexivity|].
  destruct (applyFilters_first_page s Ht) as (kept & _ & _ & _ & H1 & _). exact H1.
Defined.



Lemma render_searchInput v s :
  render (set_searchInput v s) = (fst (render s), set_searchInput v (snd (render s))).
Proof.
  destruct s as [ps fl cp tp g gl fs si pg pv nx pi fo co fe ti].
  js_unfold. simpl. destruct (length fl =? 0)%nat; simpl.
  - destruct pg; reflexivity.
  - destruct (mapM buildCard _) as [cards|e]; simpl; [|reflexivity].
    destruct pg, pv, nx, pi; reflexivity.
Qed.

Lemma applyFilters_search v s :
  applyFilters (set_searchInput (Some v) s) =
    match filterM (keep (selected_tag (filterSelect s)) (toLowerCase (trim v))) (projects s) with
    | Normal kept =>
        let r := render (set_currentPage 1 (set_filtered kept s)) in
        (fst r, set_searchInput (Some v) (snd r))
    | Throw e => (Throw e, set_searchInput (Some v) s)
    end.
Proof.
  rewrite applyFilters_run.
  change (projects (set_searchInput (Some v) s)) with (projects s).
  change (filterSelect (set_searchInput (Some v) s)) with (filterSelect s).
  change (search_query (searchInput (set_searchInput (Some v) s))) with (toLowerCase (trim v)).
  destruct (filterM _ _) as [kept|e]; [|done].
  change (set_currentPage 1 (set_filtered kept (set_searchInput (Some v) s)))
    with (set_searchInput (Some v) (set_currentPage 1 (set_filtered kept s))).
  apply render_searchInput.
Qed.

(** C10. A search text made of white space only (any of the characters
    that [trim] strips) is trimmed to the empty query: filtering gives the
    state it gives for the empty text (the field keeping what was typed),
    and the subset holds exactly the records of the catalog that pass the
    tag test. *)
Theorem blank_search_is_no_search (ws : string) (s : state) :
  all_space ws = true →
  forallb tech_typed (projects s) = true →
  let typed := applyFilters (set_searchInput (Some ws) s) in
  let cleared := applyFilters (set_searchInput (Some "") s) in
  search_query (Some ws) = ""
  ∧ fst typed = fst cleared
  ∧ snd typed = set_searchInput (Some ws) (snd cleared)
  ∧ ∀ p, p ∈ filtered (snd typed) ↔
         p ∈ projects s ∧ okTech (selected_tag (filterSelect s)) p = Normal true.
Proof.
  intros Hws Ht typed cleared. subst typed cleared.
  assert (Hq : toLowerCase (trim ws) = "") by (by rewrite (trim_all_space ws Hws)).
  rewrite !applyFilters_search, Hq. change (toLowerCase (trim "")) with "".
  split; [exact Hq|].
  destruct (filter_blank_typed (selected_tag (filterSelect s)) (projects s) Ht) as [kept Hk].
  rewrite Hk. cbv zeta. cbn [fst snd].
  split; [done|]. split; [by destruct s|].
  intros p.
  pose proof (render_vars (set_currentPage 1 (set_filtered kept s))) as (_ & Hf & _).
  change (filtered (set_searchInput (Some ws) (render (set_currentPage 1 (set_filtered kept s))).2))
    with (filtered (render (set_currentPage 1 (set_filtered kept s))).2).
  rewrite Hf. change (filtered (set_currentPage 1 (set_filtered kept s))) with kept.
  rewrite (filterM_elem _ _ _ p Hk), keep_empty_query. tauto.
Qed.

Lemma blank_search_is_no_search_witness :
  let s := snd (load (answered seven) full_page) in
  let ws := String " " (String "194" (String "160" (String "009"
              (String "227" (String "128" (String "128" " ")))))) in
  search_query (Some ws) = ""
  ∧ snd (applyFilters (set_searchInput (Some ws) s))
    = set_searchInput (Some ws) (snd (applyFilters (set_searchInput (Some "") s))).
Proof.
  intros s ws.
  assert (Hw : all_space ws = true) by reflexivity.
  assert (Ht : forallb tech_typed (projects s) = true) by (vm_compute; reflexivity).
  destruct (blank_search_is_no_search ws s Hw Ht) as (Hq & _ & Hs & _).
  split; [exact Hq | exact Hs].
Defined.

(** ** The pager *)

(** C1 (amended). For a non-empty filtered subset of [n] records, render
    stores [totalPages = max 1 (ceil (n / 6))], the least count of pages of
    six that holds [n] records, and [currentPage = min requested totalPages]:
    a requested page above the range becomes the last page, and a requested
    page of at least 1 ends within [1, totalPages]. *)
Theorem render_pager (s : state) :
  filtered s ≠ [] →
  let n := Z.of_nat (length (filtered s)) in
  let s' := snd (render s) in
  filtered s' = filtered s
  ∧ totalPages s' = Z.max 1 (ceil_div n PER_PAGE)
  ∧ PER_PAGE * (totalPages s' - 1) < n ≤ PER_PAGE * totalPages s'
  ∧ currentPage s' = Z.min (currentPage s) (totalPages s')
  ∧ (1 ≤ currentPage s → 1 ≤ currentPage s' ≤ totalPages s')
  ∧ (totalPages s' < currentPage s → currentPage s' = totalPages s')
  ∧ (1 ≤ currentPage s ≤ totalPages s' → currentPage s' = currentPage s).
Proof.
  intros Hne n s'.
  destruct (render_vars s) as (_ & Hf & _ & _ & _ & _ & _ & Ht & Hc).
  fold s' in Hf, Ht, Hc.
  assert (Hn : 0 < n) by (subst n; destruct (filtered s); [done | simpl; lia]).
  assert (Hz : (length (filtered s) =? 0)%nat = false) by (apply Nat.eqb_neq; lia).
  rewrite Hz in Ht, Hc. unfold pages in Ht, Hc. fold n in Ht, Hc.
  pose proof (ceil_div_bounds n PER_PAGE ltac:(done)) as Hb.
  assert (Hp : 1 ≤ ceil_div n PER_PAGE) by (unfold PER_PAGE in *; lia).
  rewrite <- Ht in Hc.
  assert (Htp : totalPages s' = ceil_div n PER_PAGE) by lia.
  split; [done|]. split; [done|]. split; [rewrite Htp; exact Hb|].
  split; [done|]. lia.
Qed.

Lemma render_pager_witness :
  let s := snd (load (answered seven) full_page) in
  totalPages (snd (render (set_currentPage 5 s))) = 2
  ∧ currentPage (snd (render (set_currentPage 5 s))) = 2.
Proof.
  intros s.
  assert (Hne : filtered (set_currentPage 5 s) ≠ [])
    by (apply nonempty_length; vm_compute; reflexivity).
  destruct (render_pager (set_currentPage 5 s) Hne) as (_ & Ht & _ & Hc & _).
  assert (Hv : Z.max 1 (ceil_div (Z.of_nat (length (filtered (set_currentPage 5 s)))) PER_PAGE) = 2)
    by (vm_compute; reflexivity).
  rewrite Hv in Ht. split; [exact Ht|]. rewrite Hc, Ht. reflexivity.
Defined.

(** C1 fails for the empty subset: after seven records were shown and a
    search found none, render has run and [totalPages] is still 2, not
    [max 1 (ceil (0 / 6)) = 1]. *)
Lemma empty_search_keeps_page_count :
  filtered after_empty_search = []
  ∧ totalPages after_empty_search = 2
  ∧ snd (render after_empty_search) = after_empty_search
  ∧ ¬ pager_consistent (snd (render after_empty_search)).
Proof.
  assert (H : snd (render after_empty_search) = after_empty_search) by (vm_compute; reflexivity).
  split; [vm_compute; reflexivity|]. split; [vm_compute; reflexivity|]. split; [exact H|].
  rewrite H. intros [Ht _]. vm_compute in Ht. discriminate.
Qed.

(** C8. A click on the previous-page control on page 1, or on the next-page
    control on the last page, changes nothing: neither the current page nor
    what is displayed nor any other part of the state. *)
Theorem clicks_at_the_ends (s : state) (e : event) :
  (e = ClickPrev ∧ currentPage s = 1) ∨ (e = ClickNext ∧ currentPage s = totalPages s) →
  handle e s = (Normal tt, s) ∧ dispatch s e = s.
Proof.
  intros H.
  assert (Hh : handle e s = (Normal tt, s)).
  { destruct H as [[-> Hc]|[-> Hc]]; unfold handle.
    - destruct (prevBtn s); [|done].
      unfold prevClick, gets, mbind, js_bind. rewrite Hc. done.
    - destruct (nextBtn s); [|done].
      unfold nextClick, gets, mbind, js_bind. rewrite Hc, Z.ltb_irrefl. done. }
  split; [done|]. unfold dispatch. by rewrite Hh.
Qed.

Lemma clicks_at_the_ends_witness :
  let first := snd (load (answered seven) full_page) in
  let last := run [ClickNext] first in
  (currentPage first = 1 ∧ dispatch first ClickPrev = first)
  ∧ (currentPage last = totalPages last ∧ dispatch last ClickNext = last).
Proof.
  intros first last.
  assert (H1 : currentPage first = 1) by (vm_compute; reflexivity).
  assert (H2 : currentPage last = totalPages last) by (vm_compute; reflexivity).
  split; (split; [assumption|]).
  - apply (clicks_at_the_ends first ClickPrev). left. split; [reflexivity | exact H1].
  - apply (clicks_at_the_ends last ClickNext). right. split; [reflexivity | exact H2].
Defined.

(** The handlers of the two controls, step by step. *)
Lemma prevClick_run s :
  prevClick s =
    if 1 <? currentPage s then
      match render (set_currentPage (currentPage s - 1) s) with
      | (Normal _, s') =>
          (Normal tt, if focusable PrevControl s' then set_focused (Some PrevControl) s' else s')
      | (Throw e, s') => (Throw e, s')
      end
    else (Normal tt, s).
Proof.
  unfold prevClick, focus, gets, modify, mbind, js_bind. cbn beta.
  destruct (1 <? currentPage s); [|done].
  by destruct (render _) as [[[]|e] s'].
Qed.

Lemma nextClick_run s :
  nextClick s =
    if currentPage s <? totalPages s then
      match render (set_currentPage (currentPage s + 1) s) with
      | (Normal _, s') =>
          (Normal tt, if focusable NextControl s' then set_focused (Some NextControl) s' else s')
      | (Throw e, s') => (Throw e, s')
      end
    else (Normal tt, s).
Proof.
  unfold nextClick, focus, gets, modify, mbind, js_bind. cbn beta.
  destruct (currentPage s <? totalPages s); [|done].
  by destruct (render _) as [[[]|e] s'].
Qed.

(** ** Normalizing the catalog *)

(** decimal numerals never spell [id] *)
Lemma pretty_N_go_not_id x s : s ≠ "id" → pretty_N_go x s ≠ "id".
Proof.
  revert s. induction (N.lt_wf_0 x) as [x _ IH]; intros s Hs.
  assert (x = 0 ∨ 0 < x)%N as [->|Hx] by lia.
  - by rewrite pretty_N_go_0.
  - rewrite pretty_N_go_step by done. apply IH.
    { by apply N.div_lt. }
    unfold pretty_N_char. by repeat case_match.
Qed.

Lemma pretty_nat_not_id (i : nat) : pretty i ≠ "id".
Proof.
  unfold pretty, pretty_nat, pretty, pretty_N.
  case_decide; [done|]. by apply pretty_N_go_not_id.
Qed.

Lemma indexed_no_id {A} (f : A → json) (l : list A) : indexed f l !! "id" = None.
Proof.
  unfold indexed. apply not_elem_of_list_to_map_1.
  intros H. apply list_elem_of_fmap in H as [[k v] [Hk Hin]]. simpl in Hk.
  apply elem_of_lookup_imap_1 in Hin as (i & y & Heq & _).
  injection Heq as -> _. by apply (pretty_nat_not_id i).
Qed.

Lemma get_prop_own_id p : p ≠ JNull → own_id p = None → get_prop p "id" = None.
Proof. unfold own_id. destruct p; simpl; done. Qed.

(** the [id] of a normalized record *)
Lemma normalize_id p i q :
  normalize p i = Normal q →
  q !! "id" = Some (match own_id p with
                    | Some v => v
                    | None => JStr ("p" +:+ pretty (i + 1)%nat)
                    end).
Proof.
  unfold normalize, own_id. intros H.
  assert (Hq : q = own_props p ∪ {[ "id" := or_else (get_prop p "id") (JStr ("p" +:+ pretty (i + 1)%nat)) ]}).
  { destruct p; simpl in H; try done; by injection H. }
  assert (Hp : p ≠ JNull) by (by destruct p).
  rewrite Hq. destruct (own_props p !! "id") as [v|] eqn:E.
  - by apply lookup_union_Some_l.
  - rewrite lookup_union_r by done. rewrite lookup_singleton_eq.
    by rewrite (get_prop_own_id p Hp E).
Qed.

Lemma normalize_other p i q k :
  normalize p i = Normal q → k ≠ "id" → q !! k = own_props p !! k.
Proof.
  unfold normalize. intros H Hk.
  assert (Hq : q = own_props p ∪ {[ "id" := or_else (get_prop p "id") (JStr ("p" +:+ pretty (i + 1)%nat)) ]}).
  { destruct p; simpl in H; try done; by injection H. }
  rewrite Hq. rewrite lookup_union, lookup_singleton_ne by done.
  by destruct (own_props p !! k).
Qed.

Lemma normalize_normal p i : p ≠ JNull → is_normal (normalize p i) = true.
Proof. by destruct p. Qed.

Section map_from.
Context {A B : Type} (f : A → nat → completion B).

Lemma map_from_lookup l : ∀ i ys k x,
  map_from f i l = Normal ys → l !! k = Some x →
  ∃ y, f x (i + k)%nat = Normal y ∧ ys !! k = Some y.
Proof.
  induction l as [|x0 l IH]; intros i ys k x; [done|]. cbn.
  destruct (f x0 i) as [y0|e] eqn:E0; cbn; [|done].
  destruct (map_from f (S i) l) as [rest|e] eqn:E; cbn; [|done].
  intros [= <-]. destruct k as [|k]; simpl.
  - intros [= <-]. exists y0. by rewrite Nat.add_0_r.
  - intros Hk. destruct (IH (S i) rest k x E Hk) as [y [Hy ?]].
    exists y. by rewrite <- Nat.add_succ_comm.
Qed.

Lemma map_from_length l : ∀ i ys, map_from f i l = Normal ys → length ys = length l.
Proof.
  induction l as [|x0 l IH]; intros i ys; cbn; [by intros [= <-]|].
  destruct (f x0 i) as [y0|e]; cbn; [|done].
  destruct (map_from f (S i) l) as [rest|e] eqn:E; cbn; [|done].
  intros [= <-]. simpl. f_equal. by eapply IH.
Qed.

Lemma map_from_normal l : ∀ i,
  (∀ x k, x ∈ l → is_normal (f x k) = true) → ∃ ys, map_from f i l = Normal ys.
Proof.
  induction l as [|x0 l IH]; intros i H; cbn; [by eexists|].
  pose proof (H x0 i ltac:(left)) as H0. destruct (f x0 i) as [y0|e]; [|done]. cbn.
  destruct (IH (S i)) as [ys ->]; [intros; apply H; by right|]. cbn. by eexists.
Qed.

Lemma map_from_throws l : ∀ i e,
  map_from f i l = Throw e → ∃ x k, x ∈ l ∧ f x k = Throw e.
Proof.
  induction l as [|x0 l IH]; intros i e; cbn; [done|].
  destruct (f x0 i) as [y0|e0] eqn:E0; cbn.
  - destruct (map_from f (S i) l) as [rest|e1] eqn:E; cbn; [done|].
    intros [= ->]. destruct (IH _ _ E) as (x & k & ? & ?). exists x, k. split; [by right|done].
  - intros [= ->]. exists x0, i. split; [by left|done].
Qed.
End map_from.

Lemma normalize_all_normal data :
  JNull ∉ data → ∃ ps, map_from normalize 0 data = Normal ps.
Proof.
  intros H. apply map_from_normal. intros x k Hx. apply normalize_normal. by intros ->.
Qed.

Lemma normalize_all_throws data e :
  map_from normalize 0 data = Throw e → JNull ∈ data.
Proof.
  intros H. apply map_from_throws in H as (x & k & Hx & Hn).
  destruct x; try done.
Qed.

(** ids of a loaded catalog *)
Lemma ids_lookup data ps k p :
  map_from normalize 0 data = Normal ps → data !! k = Some p →
  ids ps !! k = Some (Some (match own_id p with
                            | Some v => v
                            | None => JStr ("p" +:+ pretty (k + 1)%nat)
                            end)).
Proof.
  intros Hm Hk. destruct (map_from_lookup _ _ _ _ _ _ Hm Hk) as [q [Hq Hps]].
  unfold ids. rewrite list_lookup_fmap, Hps. simpl. f_equal.
  by apply normalize_id in Hq.
Qed.

Lemma normalize_all_unique data ps :
  map_from normalize 0 data = Normal ps →
  (∀ i j p q v, data !! i = Some p → data !! j = Some q →
                own_id p = Some v → own_id q = Some v → i = j) →
  (∀ i j p q, data !! i = Some p → data !! j = Some q →
              own_id p = None → own_id q ≠ Some (JStr ("p" +:+ pretty (i + 1)%nat))) →
  NoDup (ids ps).
Proof.
  intros Hm Hown Hsyn. apply NoDup_alt. intros i j x Hi Hj.
  assert (Hlen : length (ids ps) = length data).
  { unfold ids. rewrite length_fmap. by eapply map_from_length. }
  destruct (data !! i) as [p|] eqn:Ep.
  2:{ apply lookup_ge_None in Ep. apply lookup_lt_Some in Hi. lia. }
  destruct (data !! j) as [q|] eqn:Eq.
  2:{ apply lookup_ge_None in Eq. apply lookup_lt_Some in Hj. lia. }
  rewrite (ids_lookup _ _ _ _ Hm Ep) in Hi. rewrite (ids_lookup _ _ _ _ Hm Eq) in Hj.
  injection Hi as <-. injection Hj as Hj.
  destruct (own_id p) as [v|] eqn:Op, (own_id q) as [w|] eqn:Oq.
  - subst w. by eapply Hown.
  - subst v. by destruct (Hsyn j i q p Eq Ep Oq).
  - subst w. by destruct (Hsyn i j p q Ep Eq Op).
  - injection Hj as Hj. change (pretty (j + 1)%nat = pretty (i + 1)%nat) in Hj.
    apply (inj (pretty : nat → string)) in Hj. lia.
Qed.

(** ** load and the listeners *)

Ltac load_unfold :=
  unfold load, try_catch, load_failed, hide_pagination, throw, lift, gets, modify,
    skip, mbind, js_bind, mret, js_ret.

Lemma load_failed_run err s :
  load_failed err s =
    (Normal tt,
     match pagination s with
     | Some _ => set_pagination (Some true)
                   (set_grid UnableToLoad (set_console (console s ++ [err]) s))
     | None => set_grid UnableToLoad (set_console (console s ++ [err]) s)
     end).
Proof.
  unfold load_failed, hide_pagination, gets, modify, skip, mbind, js_bind, mret, js_ret.
  simpl. destruct (pagination s); reflexivity.
Qed.

Lemma load_rejected net s err :
  rejection net = Some err →
  load net s = load_failed err (set_fetches (S (fetches s)) s).
Proof.
  unfold rejection. intros H.
  unfold load, try_catch, throw, lift, modify, mbind, js_bind. simpl.
  destruct net as [|status body]; [by injection H as <-|].
  destruct (negb (ok status)); [by injection H as <-|].
  destruct body as [[| | | |data|]|]; try by injection H as <-.
  destruct (map_from normalize 0 data); [done|]. by injection H as <-.
Qed.

Lemma load_accepted status data ps s :
  ok status = true → map_from normalize 0 data = Normal ps →
  load (Responded status (Some (JArr data))) s =
    try_catch render load_failed
      (set_filtered ps (set_projects ps (set_fetches (S (fetches s)) s))).
Proof.
  intros Hok Hm. unfold load, try_catch, throw, lift, modify, mbind, js_bind. simpl.
  rewrite Hok, Hm. simpl. reflexivity.
Qed.

Lemma rejection_fails net : load_fails net = true ↔ is_Some (rejection net).
Proof.
  unfold load_fails, rejection. destruct net as [|status body]; simpl.
  - split; [by eexists | done].
  - destruct (negb (ok status)); simpl; [split; [by eexists | done]|].
    destruct body as [[| | | |data|]|]; simpl; try (split; [by eexists | done]).
    destruct (map_from normalize 0 data) as [ps|e] eqn:E.
    + split; [|by intros [? ?]]. intros H. apply existsb_exists in H as [x [Hin Hx]].
      destruct x; try done. apply list_elem_of_In, list_elem_of_lookup_1 in Hin as [k Hk].
      destruct (map_from_lookup _ _ _ _ _ _ E Hk) as [y [Hy _]]. done.
    + split; [by eexists|]. intros _. apply normalize_all_throws in E.
      apply existsb_exists. exists JNull. split; [by apply list_elem_of_In | done].
Qed.

Lemma render_present s :
  present (pagination (snd (render s))) = present (pagination s).
Proof.
  destruct s as [ps fl cp tp g gl fs si pg pv nx pi fo co fe ti].
  js_unfold. simpl. destruct (length fl =? 0)%nat; simpl.
  - destruct pg; reflexivity.
  - destruct (mapM buildCard _) as [cards|e]; simpl; [|reflexivity].
    destruct pg, pv, nx, pi; reflexivity.
Qed.

Lemma render_kept_apart s : kept_apart s (snd (render s)).
Proof.
  destruct (render_vars s) as (Hp & Hf & Hn & _). unfold kept_apart.
  split; [done|]. split; [done|]. split; [apply render_present|]. by rewrite Hp, Hf.
Qed.

Lemma applyFilters_kept_apart s : kept_apart s (snd (applyFilters s)).
Proof.
  rewrite applyFilters_run.
  destruct (filterM _ _) as [kept|e] eqn:E; [|done].
  destruct (render_vars (set_currentPage 1 (set_filtered kept s))) as (Hp & Hf & Hn & _).
  unfold kept_apart. split; [done|]. split; [done|].
  split; [apply (render_present (set_currentPage 1 (set_filtered kept s)))|].
  intros _. rewrite Hp, Hf. by apply filterM_sublist in E.
Qed.

Lemma prevClick_kept_apart s : kept_apart s (snd (prevClick s)).
Proof.
  rewrite prevClick_run. destruct (1 <? currentPage s); [|done].
  pose proof (render_kept_apart (set_currentPage (currentPage s - 1) s)) as H.
  destruct (render _) as [[[]|e] s']; [|exact H].
  cbn [snd]. destruct (focusable _ _); exact H.
Qed.

Lemma nextClick_kept_apart s : kept_apart s (snd (nextClick s)).
Proof.
  rewrite nextClick_run. destruct (currentPage s <? totalPages s); [|done].
  pose proof (render_kept_apart (set_currentPage (currentPage s + 1) s)) as H.
  destruct (render _) as [[[]|e] s']; [|exact H].
  cbn [snd]. destruct (focusable _ _); exact H.
Qed.

Lemma handle_kept_apart e s : kept_apart s (snd (handle e s)).
Proof.
  destruct e; unfold handle.
  - destruct (filterSelect s); [|done]. apply (applyFilters_kept_apart (set_filterSelect (Some v) s)).
  - destruct (searchInput s); done.
  - destruct (timer s); [|done]. apply (applyFilters_kept_apart (set_timer false s)).
  - destruct (searchInput s); [|done]. apply applyFilters_kept_apart.
  - destruct (prevBtn s); [|done]. apply prevClick_kept_apart.
  - destruct (nextBtn s); [|done]. apply nextClick_kept_apart.
Qed.

Lemma dispatch_kept_apart s e : kept_apart s (dispatch s e).
Proof.
  unfold dispatch. pose proof (handle_kept_apart e s) as H.
  destruct (handle e s) as [[[]|err] s']; exact H.
Qed.

Lemma run_kept_apart evs s : kept_apart s (run evs s).
Proof.
  revert s. induction evs as [|e evs IH]; intros s; [done|].
  change (run (e :: evs) s) with (run evs (dispatch s e)).
  destruct (dispatch_kept_apart s e) as (Hp & Hn & Hg & Hs).
  destruct (IH (dispatch s e)) as (Hp' & Hn' & Hg' & Hs').
  unfold kept_apart. split; [congruence|]. split; [congruence|]. split; [congruence|].
  intros H. apply Hs', Hs, H.
Qed.

Lemma load_fetches net s : fetches (snd (load net s)) = S (fetches s).
Proof.
  destruct (rejection net) as [err|] eqn:E.
  - rewrite (load_rejected _ _ _ E), load_failed_run. simpl. by destruct (pagination _).
  - destruct net as [|status body]; [done|]. unfold rejection in E.
    destruct (ok status) eqn:Hok; [|done]. simpl in E.
    destruct body as [[| | | |data|]|]; try done.
    destruct (map_from normalize 0 data) as [ps|] eqn:Hm; [|done].
    rewrite (load_accepted _ _ _ _ Hok Hm). unfold try_catch.
    destruct (render_vars (set_filtered ps (set_projects ps (set_fetches (S (fetches s)) s))))
      as (_ & _ & Hn & _).
    destruct (render _) as [[[]|e] s']; simpl in *; [done|].
    rewrite load_failed_run. simpl. by destruct (pagination s').
Qed.

Lemma load_projects_accepted status data ps s :
  ok status = true → map_from normalize 0 data = Normal ps →
  let s' := snd (load (Responded status (Some (JArr data))) s) in
  projects s' = ps ∧ filtered s' = ps.
Proof.
  intros Hok Hm. rewrite (load_accepted _ _ _ _ Hok Hm). unfold try_catch.
  destruct (render_vars (set_filtered ps (set_projects ps (set_fetches (S (fetches s)) s))))
      as (Hp & Hf & _).
  destruct (render _) as [[[]|e] s']; simpl in *; [done|].
  rewrite load_failed_run. simpl. by destruct (pagination s').
Qed.

Lemma load_sublist net s :
  filtered s `sublist_of` projects s →
  filtered (snd (load net s)) `sublist_of` projects (snd (load net s)).
Proof.
  intros H. destruct (rejection net) as [err|] eqn:E.
  - rewrite (load_rejected _ _ _ E), load_failed_run. simpl. by destruct (pagination _).
  - destruct net as [|status body]; [done|]. unfold rejection in E.
    destruct (ok status) eqn:Hok; [|done]. simpl in E.
    destruct body as [[| | | |data|]|]; try done.
    destruct (map_from normalize 0 data) as [ps|] eqn:Hm; [|done].
    destruct (load_projects_accepted _ _ _ s Hok Hm) as [-> ->]. done.
Qed.

(** ** A visit *)

Lemma initial_run_projects sel inp pg prev next info before :
  let s := run before (initial sel inp pg prev next info) in
  projects s = [] ∧ fetches s = 0%nat ∧ filtered s `sublist_of` projects s.
Proof.
  intros s. destruct (run_kept_apart before (initial sel inp pg prev next info)) as (Hp & Hn & _ & Hs).
  fold s in Hp, Hn, Hs. split; [done|]. split; [done|]. by apply Hs.
Qed.

(** C9. A source object without an [id] field at position [i] (from 0)
    becomes the record with the id ["p"] followed by [i + 1], its other
    fields as in the source. *)
Theorem missing_id_is_position (s : state) (status : Z) (data : list json)
    (i : nat) (m : gmap string json) :
  ok status = true →
  JNull ∉ data →
  data !! i = Some (JObj m) →
  m !! "id" = None →
  ∃ q, projects (snd (load (Responded status (Some (JArr data))) s)) !! i = Some q
       ∧ q !! "id" = Some (JStr ("p" +:+ pretty (i + 1)%nat))
       ∧ ∀ k, k ≠ "id" → q !! k = m !! k.
Proof.
  intros Hok Hnull Hi Hid.
  destruct (normalize_all_normal data Hnull) as [ps Hm].
  destruct (load_projects_accepted _ _ _ s Hok Hm) as [-> _].
  destruct (map_from_lookup _ _ _ _ _ _ Hm Hi) as [q [Hq Hps]].
  exists q. split; [done|]. split.
  - rewrite (normalize_id _ _ _ Hq). unfold own_id. simpl. by rewrite Hid.
  - intros k Hk. by rewrite (normalize_other _ _ _ _ Hq Hk).
Qed.

Lemma missing_id_is_position_witness :
  ∃ q, projects (snd (load (answered third_without_id) full_page)) !! 2%nat = Some q
       ∧ q !! "id" = Some (JStr "p3").
Proof.
  destruct (missing_id_is_position full_page 200 third_without_id 2
              (list_to_map [("title", JStr "Three")])) as (q & Hq & Hid & _).
  - reflexivity.
  - intros H. vm_compute in H. repeat (apply elem_of_cons in H as [H|H]; [discriminate|]).
    by apply not_elem_of_nil in H.
  - reflexivity.
  - vm_compute. reflexivity.
  - exists q. split; [exact Hq | exact Hid].
Defined.

(** C3 fails in its uniqueness half: two source objects with the same [id]
    keep it, and an [id] that reads like a position collides with a
    synthesized one. *)
Lemma loaded_ids_may_repeat :
  ¬ NoDup (ids (projects (snd (load (answered same_id_twice) full_page))))
  ∧ ¬ NoDup (ids (projects (snd (load (answered id_like_a_position) full_page)))).
Proof.
  split.
  - assert (H : ids (projects (snd (load (answered same_id_twice) full_page)))
                = [Some (JStr "a"); Some (JStr "a")]) by (vm_compute; reflexivity).
    rewrite H. intros Hn. apply NoDup_cons in Hn as [Hn _]. apply Hn. by left.
  - assert (H : ids (projects (snd (load (answered id_like_a_position) full_page)))
                = [Some (JStr "p2"); Some (JStr "p2")]) by (vm_compute; reflexivity).
    rewrite H. intros Hn. apply NoDup_cons in Hn as [Hn _]. apply Hn. by left.
Qed.

(** C3 (amended). The ids are assigned by the load and never change
    afterwards: no action of the visitor changes the catalog, and what is
    filtered is drawn from it.  They are pairwise different when those the
    source gives are pairwise different and none of them is the id
    synthesized for a record without one. *)
Theorem ids_assigned_once (sel inp : option string) (pg prev next : option bool)
    (info : option string) (before after : list event) (net : fetched) :
  let page := initial sel inp pg prev next info in
  let loaded := snd (load net (run before page)) in
  let final := visit page before net after in
  projects final = projects loaded
  ∧ ids (projects final) = ids (projects loaded)
  ∧ filtered final `sublist_of` projects loaded
  ∧ ∀ status data,
      net = Responded status (Some (JArr data)) → ok status = true → JNull ∉ data →
      (∀ i j p q v, data !! i = Some p → data !! j = Some q →
                    own_id p = Some v → own_id q = Some v → i = j) →
      (∀ i j p q, data !! i = Some p → data !! j = Some q →
                  own_id p = None → own_id q ≠ Some (JStr ("p" +:+ pretty (i + 1)%nat))) →
      length (projects loaded) = length data ∧ NoDup (ids (projects loaded)).
Proof.
  intros page loaded final.
  destruct (run_kept_apart after loaded) as (Hp & _ & _ & Hs).
  destruct (initial_run_projects sel inp pg prev next info before) as (_ & _ & Hb).
  fold page in Hb. apply (load_sublist net) in Hb. fold loaded in Hb.
  change (run after loaded) with final in Hp, Hs.
  split; [done|]. split; [by rewrite Hp|]. split; [rewrite <- Hp; by apply Hs|].
  intros status data -> Hok Hnull Hown Hsyn.
  destruct (normalize_all_normal data Hnull) as [ps Hm].
  destruct (load_projects_accepted _ _ _ (run before page) Hok Hm) as [Hl _].
  fold loaded in Hl. rewrite Hl. split.
  - by eapply map_from_length.
  - by apply (normalize_all_unique data).
Qed.

Lemma lookup_three {A} (a b c x : A) (i : nat) :
  [a; b; c] !! i = Some x →
  (i = 0%nat ∧ x = a) ∨ (i = 1%nat ∧ x = b) ∨ (i = 2%nat ∧ x = c).
Proof.
  destruct i as [|[|[|i]]]; simpl; intros H; simplify_eq; auto.
Qed.

Lemma not_elem_of_three {A} (a b c x : A) : x ≠ a → x ≠ b → x ≠ c → x ∉ [a; b; c].
Proof.
  intros Ha Hb Hc H. repeat (apply elem_of_cons in H as [H|H]; [done|]).
  by apply not_elem_of_nil in H.
Qed.

Lemma ids_assigned_once_witness :
  let page := initial (Some "all") (Some "") (Some false) (Some false) (Some false) (Some "") in
  let after := [TypeSearch "two"; PressEnter; ClickNext] in
  let loaded := snd (load (answered third_without_id) (run [] page)) in
  NoDup (ids (projects loaded))
  ∧ projects (visit page [] (answered third_without_id) after) = projects loaded.
Proof.
  intros page after loaded.
  pose proof (ids_assigned_once (Some "all") (Some "") (Some false) (Some false) (Some false)
                (Some "") [] after (answered third_without_id)) as H.
  cbv zeta in H. fold page in H. fold loaded in H.
  destruct H as (Hp & _ & _ & Hu).
  split; [|exact Hp].
  refine (proj2 (Hu 200 third_without_id eq_refl eq_refl _ _ _)).
  - apply not_elem_of_three; discriminate.
  - intros i j p q v Hi Hj Hp' Hq'.
    apply lookup_three in Hi as [[-> ->]|[[-> ->]|[-> ->]]];
      apply lookup_three in Hj as [[-> ->]|[[-> ->]|[-> ->]]];
      try reflexivity; vm_compute in Hp', Hq'; congruence.
  - intros i j p q Hi Hj Hp' Hq'.
    apply lookup_three in Hi as [[-> ->]|[[-> ->]|[-> ->]]];
      apply lookup_three in Hj as [[-> ->]|[[-> ->]|[-> ->]]];
      vm_compute in Hp'; try discriminate Hp'; vm_compute in Hq'; discriminate Hq'.
Defined.

(** C7 fails in its first half: an array of numbers is not a sequence of
    objects, and the loader accepts it. *)
Lemma array_of_numbers_is_accepted :
  let s' := snd (load (Responded 200 (Some two_numbers)) full_page) in
  sequence_of_objects two_numbers = false
  ∧ console s' = [] ∧ length (projects s') = 2%nat ∧ grid s' ≠ UnableToLoad
  ∧ ¬ (console s' = [MalformedCatalog] ↔ sequence_of_objects two_numbers = false).
Proof.
  intros s'.
  assert (Hc : console s' = []) by (vm_compute; reflexivity).
  split; [reflexivity|]. split; [exact Hc|]. split; [vm_compute; reflexivity|].
  split; [vm_compute; discriminate|].
  rewrite Hc. intros [_ H]. specialize (H eq_refl). discriminate.
Qed.

(** C7 (amended). The loader throws the malformed-catalog error exactly when
    the body is not an array (the elements are not looked at).  One request
    is sent in a visit, whatever happens.  On a load failure (no response, a
    status that is not a success, a body that is not JSON or not an array,
    a [null] element) the grid shows the unable-to-load notice, the
    pagination is hidden, and the catalog is and stays empty. *)
Theorem load_failure_is_final (sel inp : option string) (pg prev next : option bool)
    (info : option string) (before after : list event) (net : fetched) :
  let page := initial sel inp pg prev next info in
  let s := run before page in
  let s' := snd (load net s) in
  let final := visit page before net after in
  (∀ status body, net = Responded status (Some body) → ok status = true →
     (console s' = console s ++ [MalformedCatalog] ↔ is_array body = false))
  ∧ fetches final = 1%nat
  ∧ (load_fails net = true →
       fst (load net s) = Normal tt
       ∧ (∃ err, console s' = console s ++ [err])
       ∧ grid s' = UnableToLoad
       ∧ pagination s' = (fun _ => true) <$> pg
       ∧ projects s' = [] ∧ projects final = []).
Proof.
  intros page s s' final.
  destruct (initial_run_projects sel inp pg prev next info before) as (Hbp & Hbn & _).
  fold page s in Hbp, Hbn.
  destruct (run_kept_apart after s') as (Hp & Hn & _).
  change (run after s') with final in Hp, Hn.
  assert (Hcon : ∀ (t u : state), console (match pagination t with
                   | Some _ => set_pagination (Some true) u | None => u end) = console u).
  { intros t u. by destruct (pagination t). }
  split; [|split].
  - intros status body -> Hok. subst s'.
    destruct (rejection (Responded status (Some body))) as [err|] eqn:E.
    + rewrite (load_rejected _ _ _ E), load_failed_run.
      cbn [snd]. rewrite Hcon. cbn [console set_console set_grid set_fetches].
      unfold rejection in E. rewrite Hok in E. cbn [negb] in E.
      destruct body as [| | | |data|]; cbn [is_array]; try (injection E as <-; done).
      split; [|done]. intros H. apply app_inv_head in H. injection H as ->.
      destruct (map_from normalize 0 data) as [|e] eqn:Hm; [done|]. injection E as ->.
      apply map_from_throws in Hm as (x & k & _ & Hx). by destruct x.
    + unfold rejection in E. rewrite Hok in E. cbn [negb] in E.
      destruct body as [| | | |data|]; try done.
      destruct (map_from normalize 0 data) as [ps|] eqn:Hm; [|done].
      rewrite (load_accepted _ _ _ _ Hok Hm). unfold try_catch.
      destruct (render_vars (set_filtered ps (set_projects ps (set_fetches (S (fetches s)) s))))
        as (_ & _ & _ & Hc & _).
      pose proof (render_TypeError (set_filtered ps (set_projects ps (set_fetches (S (fetches s)) s))))
        as Ht.
      split; [|done]. intros H. exfalso. revert H.
      destruct (render _) as [[[]|e] t]; cbn [fst snd] in *.
      * rewrite Hc. cbn [console set_filtered set_projects set_fetches].
        intros H. apply (f_equal length) in H. rewrite length_app in H. simpl in H. lia.
      * rewrite load_failed_run. cbn [snd]. rewrite Hcon.
        cbn [console set_console set_grid]. rewrite Hc.
        cbn [console set_filtered set_projects set_fetches].
        intros H. apply app_inv_head in H. injection H as ->.
        destruct (Ht _ eq_refl) as [msg Hmsg]. discriminate.
  - rewrite Hn. subst s'. by rewrite load_fetches, Hbn.
  - intros Hf. apply rejection_fails in Hf as [err E]. subst s'.
    rewrite Hp. rewrite (load_rejected _ _ _ E), load_failed_run. cbn [fst snd].
    destruct (run_kept_apart before page) as (_ & _ & Hg & _). fold s in Hg.
    change (present (pagination s) = present pg) in Hg.
    change (pagination (set_fetches (S (fetches s)) s)) with (pagination s).
    destruct (pagination s) as [b|] eqn:Epg, pg as [b'|]; try discriminate Hg; cbn.
    all: rewrite Hbp; split; [done|]; split; [by exists err|]; done.
Qed.

Lemma load_failure_is_final_witness :
  let page := initial (Some "all") (Some "") (Some false) (Some false) (Some false) (Some "") in
  let s' := snd (load (Responded 500 None) (run [] page)) in
  grid s' = UnableToLoad ∧ pagination s' = Some true ∧ projects s' = [].
Proof.
  intros page s'.
  pose proof (load_failure_is_final (Some "all") (Some "") (Some false) (Some false)
                (Some false) (Some "") [] [] (Responded 500 None)) as H.
  cbv zeta in H. fold page in H. fold s' in H.
  destruct H as (_ & _ & H). destruct (H eq_refl) as (_ & _ & Hg & Hp & He & _).
  split; [exact Hg|]. split; [exact Hp | exact He].
Defined.

(** * Further properties of the listing *)

Lemma pages_bounds (n : nat) :
  (0 < n)%nat → 1 ≤ pages n ∧ PER_PAGE * (pages n - 1) < Z.of_nat n ≤ PER_PAGE * pages n.
Proof.
  intros Hn. unfold pages.
  pose proof (ceil_div_bounds (Z.of_nat n) PER_PAGE ltac:(done)) as Hb.
  unfold PER_PAGE in *. lia.
Qed.

(** X2. For a subset that is not empty and a requested page of at least 1,
    render takes the six records from offset [6 * (currentPage - 1)] of the
    subset, or those that remain: at least one and at most six, so the
    clamped page is never an empty one.  The grid shows their cards, one for
    each, in order; when the card of one of them cannot be built render
    throws and the grid stays empty.  The cards of records of the data model
    can be built. *)
Theorem render_shows_a_page (s : state) :
  filtered s ≠ [] →
  1 ≤ currentPage s →
  let s' := snd (render s) in
  let start := Z.to_nat ((currentPage s' - 1) * PER_PAGE) in
  let items := take 6 (drop start (filtered s)) in
  (1 ≤ length items ≤ 6)%nat
  ∧ length items = Nat.min 6 (length (filtered s) - start)
  ∧ match mapM buildCard items with
    | Normal cards => grid s' = Cards cards ∧ length cards = length items
    | Throw e => grid s' = Blank ∧ fst (render s) = Throw e
    end
  ∧ (forallb conforms (filtered s) = true → is_normal (mapM buildCard items) = true).
Proof.
  intros Hne Hcp s' start items.
  destruct (render_vars s) as (_ & _ & _ & _ & _ & _ & _ & _ & Hc).
  fold s' in Hc.
  assert (Hn : (0 < length (filtered s))%nat) by (destruct (filtered s); [done | simpl; lia]).
  assert (Hz : (length (filtered s) =? 0)%nat = false) by (apply Nat.eqb_neq; lia).
  rewrite Hz in Hc.
  destruct (pages_bounds _ Hn) as [Hp Hb].
  assert (Hstart : (start < length (filtered s))%nat).
  { subst start. rewrite Hc. unfold PER_PAGE in *. lia. }
  assert (Hitems : page_of (filtered s) (currentPage s') = items).
  { subst items. unfold page_of.
    replace ((currentPage s' - 1) * PER_PAGE) with (Z.of_nat start)
      by (subst start; rewrite Z2Nat.id; [done | unfold PER_PAGE; lia]).
    change PER_PAGE with (Z.of_nat 6). apply slice_take_drop. }
  split; [subst items; rewrite length_take, length_drop; lia|].
  split; [subst items; rewrite length_take, length_drop; lia|].
  split.
  - subst s'. rewrite (render_grid s Hne), (render_page s Hne). cbv zeta.
    rewrite <- Hc. unfold cards_of. rewrite Hitems.
    destruct (mapM buildCard items) as [cards|e] eqn:E; [|done].
    split; [done|]. by apply mapM_length in E.
  - intros Hd. rewrite <- Hitems. by apply page_conforms.
Qed.

Lemma chunks_concat {A} (m : nat) : ∀ l : list A,
  (length l ≤ 6 * m)%nat →
  concat ((fun k => take 6 (drop (6 * k) l)) <$> seq 0 m) = l.
Proof.
  induction m as [|m IH]; intros l Hl.
  - destruct l; [done | simpl in Hl; lia].
  - cbn [seq fmap list_fmap concat]. rewrite Nat.mul_0_r, drop_0.
    rewrite <- seq_shift, <- list_fmap_compose.
    transitivity (take 6 l ++ drop 6 l); [|apply take_drop]. f_equal.
    rewrite <- (IH (drop 6 l)) by (rewrite length_drop; lia).
    f_equal. apply list_fmap_ext. intros _ k _. simpl.
    rewrite drop_drop. do 2 f_equal. lia.
Qed.

(** X3. The pages 1 to totalPages, each cut as render cuts it, put one
    after the other give back the filtered subset: paging loses no record
    and shows none twice; no page has more than six. *)
Theorem pages_cover_the_subset (fl : list record) :
  concat (all_pages fl) = fl
  ∧ length (all_pages fl) = Z.to_nat (pages (length fl))
  ∧ Forall (fun pg => (length pg ≤ 6)%nat) (all_pages fl).
Proof.
  unfold all_pages. split; [|split].
  - rewrite <- seq_shift, <- list_fmap_compose.
    rewrite (list_fmap_ext _ (fun k => take 6 (drop (6 * k) fl)) (seq 0 _) )
      by (intros _ k _; apply page_of_take_drop).
    apply chunks_concat. unfold pages.
    pose proof (ceil_div_bounds (Z.of_nat (length fl)) PER_PAGE ltac:(done)).
    unfold PER_PAGE in *. lia.
  - by rewrite length_fmap, length_seq.
  - apply Forall_fmap, Forall_forall. intros k Hk. simpl.
    apply elem_of_seq in Hk. destruct k as [|k]; [lia|].
    rewrite page_of_take_drop, length_take. lia.
Qed.

Lemma pages_ge_1 n : 1 ≤ pages n.
Proof. unfold pages. lia. Qed.

Lemma render_inv s :
  1 ≤ currentPage s → 1 ≤ totalPages s →
  (filtered s = [] → currentPage s ≤ totalPages s) →
  (projects s = [] → filtered s = [] ∧ currentPage s = 1 ∧ totalPages s = 1) →
  pager_inv (snd (render s)).
Proof.
  intros Hc Ht He Hp.
  destruct (render_vars s) as (Ep & Ef & _ & _ & _ & _ & _ & Et & Ec).
  unfold pager_inv. rewrite Ep, Ef, Et, Ec.
  destruct (filtered s) as [|x fl] eqn:E.
  - simpl. split; [split; [done | by apply He]|]. split; [done|].
    intros H. by destruct (Hp H) as (_ & ? & ?).
  - cbn [length Nat.eqb]. pose proof (pages_ge_1 (S (length fl))).
    split; [lia|]. split; [done|]. intros H'. by destruct (Hp H') as (? & _).
Qed.

Lemma sublist_of_nil {A} (l : list A) : l `sublist_of` [] → l = [].
Proof. apply sublist_nil_r. Qed.

Lemma applyFilters_inv s :
  pager_inv s → pager_inv (snd (applyFilters s)).
Proof.
  intros (Hc & Ht & Hp). rewrite applyFilters_run.
  destruct (filterM _ _) as [kept|e] eqn:E; [|done].
  apply render_inv; cbn; try lia.
  intros H. rewrite H in E. destruct kept; [|discriminate E].
  by destruct (Hp H) as [_ ->].
Qed.

Lemma prevClick_inv s :
  pager_inv s → filtered s `sublist_of` projects s → pager_inv (snd (prevClick s)).
Proof.
  intros (Hc & Ht & Hp) Hs. rewrite prevClick_run.
  destruct (Z.ltb_spec 1 (currentPage s)) as [Hlt|Hge]; [|done].
  assert (Hi : pager_inv (snd (render (set_currentPage (currentPage s - 1) s)))).
  { apply render_inv; cbn; try lia. intros H. destruct (Hp H). lia. }
  destruct (render _) as [[[]|e] s']; [|exact Hi].
  cbn [snd]. destruct (focusable _ _); exact Hi.
Qed.

Lemma nextClick_inv s :
  pager_inv s → filtered s `sublist_of` projects s → pager_inv (snd (nextClick s)).
Proof.
  intros (Hc & Ht & Hp) Hs. rewrite nextClick_run.
  destruct (Z.ltb_spec (currentPage s) (totalPages s)) as [Hlt|Hge]; [|done].
  assert (Hi : pager_inv (snd (render (set_currentPage (currentPage s + 1) s)))).
  { apply render_inv; cbn; try lia. intros H. destruct (Hp H). lia. }
  destruct (render _) as [[[]|e] s']; [|exact Hi].
  cbn [snd]. destruct (focusable _ _); exact Hi.
Qed.

Lemma handle_inv e s :
  pager_inv s → filtered s `sublist_of` projects s → pager_inv (snd (handle e s)).
Proof.
  intros Hi Hs. destruct e; unfold handle.
  - destruct (filterSelect s); [|done]. by apply (applyFilters_inv (set_filterSelect (Some v) s)).
  - destruct (searchInput s); done.
  - destruct (timer s); [|done]. by apply (applyFilters_inv (set_timer false s)).
  - destruct (searchInput s); [|done]. by apply applyFilters_inv.
  - destruct (prevBtn s); [|done]. by apply prevClick_inv.
  - destruct (nextBtn s); [|done]. by apply nextClick_inv.
Qed.

Lemma dispatch_inv s e :
  pager_inv s → filtered s `sublist_of` projects s → pager_inv (dispatch s e).
Proof.
  intros Hi Hs. unfold dispatch. pose proof (handle_inv e s Hi Hs) as H.
  destruct (handle e s) as [[[]|err] s']; exact H.
Qed.

Lemma run_inv evs : ∀ s,
  pager_inv s → filtered s `sublist_of` projects s →
  pager_inv (run evs s) ∧ filtered (run evs s) `sublist_of` projects (run evs s).
Proof.
  induction evs as [|e evs IH]; intros s Hi Hs; [done|].
  change (run (e :: evs) s) with (run evs (dispatch s e)).
  apply IH; [by apply dispatch_inv|].
  destruct (dispatch_kept_apart s e) as (_ & _ & _ & H). by apply H.
Qed.

Lemma load_inv net s :
  pager_inv s → projects s = [] → pager_inv (snd (load net s)).
Proof.
  intros (Hc & Ht & Hp) Hs. destruct (Hp Hs) as [Hc1 Ht1]. destruct (rejection net) as [err|] eqn:E.
  - rewrite (load_rejected _ _ _ E), load_failed_run. cbn [snd].
    destruct (pagination _); done.
  - destruct net as [|status body]; [done|]. unfold rejection in E.
    destruct (ok status) eqn:Hok; [|done]. cbn [negb] in E.
    destruct body as [[| | | |data|]|]; try done.
    destruct (map_from normalize 0 data) as [ps|] eqn:Hm; [|done].
    rewrite (load_accepted _ _ _ _ Hok Hm). unfold try_catch.
    assert (Hi : pager_inv (snd (render (set_filtered ps (set_projects ps
                    (set_fetches (S (fetches s)) s)))))).
    { apply render_inv; cbn; try lia.
      intros ->. done. }
    destruct (render _) as [[[]|e] s']; cbn [snd]; [done|].
    rewrite load_failed_run. cbn [snd]. destruct (pagination s'); exact Hi.
Qed.

(** X1. In every state of a visit (whatever the page has, whatever the
    visitor does before and after the answer, whatever the answer is) the
    current page lies within [1, totalPages]; when the filtered subset is
    not empty, totalPages is the page count of that subset; and the subset
    is a subsequence of the catalog. *)
Theorem visit_keeps_the_pager_sound (sel inp : option string) (pg prev next : option bool)
    (info : option string) (before after : list event) (net : fetched) :
  let s := visit (initial sel inp pg prev next info) before net after in
  1 ≤ currentPage s ≤ totalPages s
  ∧ (filtered s ≠ [] →
     totalPages s = Z.max 1 (ceil_div (Z.of_nat (length (filtered s))) PER_PAGE))
  ∧ filtered s `sublist_of` projects s.
Proof.
  intros s. set (page := initial sel inp pg prev next info) in *.
  assert (H0 : pager_inv page) by (unfold pager_inv; cbn; done).
  assert (S0 : filtered page `sublist_of` projects page) by (cbn; constructor).
  destruct (run_inv before page H0 S0) as [H1 S1].
  destruct (initial_run_projects sel inp pg prev next info before) as (P1 & _ & _).
  fold page in P1.
  pose proof (load_inv net _ H1 P1) as H2.
  pose proof (load_sublist net _ S1) as S2.
  destruct (run_inv after _ H2 S2) as [(Hc & Ht & _) S3].
  split; [exact Hc|]. split; [exact Ht | exact S3].
Qed.

(** X4. Rendering again without a change in between gives the same result
    and the same state as rendering once. *)
Theorem render_twice (s : state) : render (snd (render s)) = render s.
Proof.
  destruct (decide (filtered s = [])) as [He|Hne].
  { rewrite (render_empty s He). cbn [snd].
    destruct s as [ps fl cp tp g gl fs si pg pv nx pi fo co fe ti]. cbn in He. subst fl.
    destruct pg; reflexivity. }
  pose proof (render_vars s) as (_ & Hf & _ & _ & _ & _ & _ & Ht & Hc).
  assert (Hz : (length (filtered s) =? 0)%nat = false).
  { apply Nat.eqb_neq. destruct (filtered s); [done | simpl; lia]. }
  rewrite Hz in Ht, Hc.
  assert (Hne' : filtered (snd (render s)) ≠ []) by (by rewrite Hf).
  rewrite (render_page (snd (render s)) Hne'). cbv zeta. rewrite Hf, Hc.
  set (T := pages (length (filtered s))).
  replace (Z.min (Z.min (currentPage s) T) T) with (Z.min (currentPage s) T) by lia.
  rewrite (render_page s Hne). cbv zeta. fold T.
  destruct (cards_of (filtered s) (Z.min (currentPage s) T)) as [cards|e]; cbn [snd].
  - generalize (Z.min (currentPage s) T), T,
      (pretty (length (filtered s)) +:+ " projects. Showing "
       +:+ pretty (length (page_of (filtered s) (Z.min (currentPage s) T)))
       +:+ " on this page.").
    intros c t label.
    destruct s as [ps fl cp tp g gl fs si pg pv nx pi fo co fe ti].
    destruct pg, pv, nx, pi;
      lazy -[pretty String.append Z.eqb Z.leb Z.ltb]; reflexivity.
  - by destruct s.
Qed.

(** X5. On a page that has all the controls, rendering a subset of records
    of the data model that is not empty completes: the grid shows the cards
    of the current page, the pagination bar is hidden exactly when the subset
    has at most six records, the previous control is disabled exactly on
    page 1 and the next control exactly on the last page, and the page
    information reads "Page <current> of <total>". *)
Theorem render_sets_the_controls (s : state) :
  filtered s ≠ [] →
  forallb conforms (filtered s) = true →
  present (pagination s) = true → present (prevBtn s) = true →
  present (nextBtn s) = true → present (pageInfo s) = true →
  let s' := snd (render s) in
  fst (render s) = Normal tt
  ∧ (∃ cards, cards_of (filtered s) (currentPage s') = Normal cards ∧ grid s' = Cards cards)
  ∧ pagination s' = Some (length (filtered s) <=? 6)%nat
  ∧ prevBtn s' = Some (currentPage s' =? 1)
  ∧ nextBtn s' = Some (currentPage s' =? totalPages s')
  ∧ pageInfo s' = Some ("Page " +:+ pretty (currentPage s') +:+ " of " +:+ pretty (totalPages s')).
Proof.
  intros Hne Hd Hpg Hpv Hnx Hpi.
  pose proof (page_conforms (filtered s)
                (Z.min (currentPage s) (pages (length (filtered s)))) Hd) as Hn.
  rewrite (render_page s Hne). cbv zeta.
  destruct (cards_of _ _) as [cards|e] eqn:E; [|discriminate Hn]. clear Hn.
  assert (Hsix : (pages (length (filtered s)) <=? 1) = (length (filtered s) <=? 6)%nat).
  { assert (Hn : (0 < length (filtered s))%nat)
      by (destruct (filtered s); [done | simpl; lia]).
    destruct (pages_bounds _ Hn) as [H1 Hb]. unfold PER_PAGE in Hb.
    destruct (Z.leb_spec (pages (length (filtered s))) 1);
      destruct (Nat.leb_spec (length (filtered s)) 6); try done; lia. }
  rewrite <- Hsix. revert E.
  generalize (Z.min (currentPage s) (pages (length (filtered s)))),
    (pages (length (filtered s))),
    (pretty (length (filtered s)) +:+ " projects. Showing "
     +:+ pretty (length (page_of (filtered s)
                   (Z.min (currentPage s) (pages (length (filtered s))))))
     +:+ " on this page.").
  intros c t label E.
  destruct s as [ps fl cp tp g gl fs si pg pv nx pi fo co fe ti].
  cbn [pagination prevBtn nextBtn pageInfo] in Hpg, Hpv, Hnx, Hpi.
  destruct pg, pv, nx, pi; try discriminate.
  lazy -[pretty String.append Z.eqb Z.leb Z.ltb cards_of].
  split; [reflexivity|]. split; [by exists cards|]. repeat split; reflexivity.
Qed.

Ltac js_eval :=
  lazy -[Z.min Z.max ceil_div slice pretty String.append Z.mul Z.sub Z.add Z.eqb Z.leb
         Z.ltb Z.of_nat PER_PAGE Nat.leb app].

(** render stops at the first control that is missing, if not before. *)
Lemma render_broken s :
  filtered s ≠ [] → pager_complete s = false →
  let s' := snd (render s) in
  (∃ msg, fst (render s) = Throw (TypeError msg))
  ∧ gridLabel s' = gridLabel s
  ∧ present (pagination s') = true.
Proof.
  intros Hne Hbad. rewrite (render_page s Hne). cbv zeta.
  destruct (cards_of _ _) as [cards|e] eqn:E.
  - generalize (Z.min (currentPage s) (pages (length (filtered s)))),
      (pages (length (filtered s))),
      (pretty (length (filtered s)) +:+ " projects. Showing "
       +:+ pretty (length (page_of (filtered s)
                     (Z.min (currentPage s) (pages (length (filtered s))))))
       +:+ " on this page.").
    intros c t label.
    destruct s as [ps fl cp tp g gl fs si pg pv nx pi fo co fe ti].
    unfold pager_complete in Hbad. cbn [pagination prevBtn nextBtn present] in Hbad.
    destruct pg as [b|]; [|discriminate].
    destruct pv as [b1|]; [destruct nx as [b2|]; [discriminate|] |]; js_eval; eauto.
  - apply mapM_TypeError in E as [msg ->]; [|intros x e0; apply buildCard_TypeError].
    destruct s as [ps fl cp tp g gl fs si pg pv nx pi fo co fe ti].
    unfold pager_complete in Hbad. cbn [pagination prevBtn nextBtn present] in Hbad.
    destruct pg as [b|]; [|discriminate]. cbn. eauto.
Qed.

(** X6. On a page that has the pagination bar but lacks the previous or
    the next control, a catalog that was fetched and normalized without
    fault is stored, yet the first render throws a TypeError (on the missing
    control, if not before) and the [catch] of load shows the unable-to-load
    notice; the accessible label of the grid is not written. *)
Theorem load_with_a_broken_pager (s : state) (status : Z) (data : list json)
    (ps : list record) :
  ok status = true →
  map_from normalize 0 data = Normal ps →
  ps ≠ [] →
  pager_complete s = false →
  let s' := snd (load (Responded status (Some (JArr data))) s) in
  projects s' = ps ∧ filtered s' = ps
  ∧ grid s' = UnableToLoad
  ∧ pagination s' = Some true
  ∧ gridLabel s' = gridLabel s
  ∧ ∃ msg, console s' = console s ++ [TypeError msg].
Proof.
  intros Hok Hm Hne Hbad. rewrite (load_accepted _ _ _ _ Hok Hm).
  set (s1 := set_filtered ps (set_projects ps (set_fetches (S (fetches s)) s))).
  destruct (render_vars s1) as (Hp & Hf & _ & Hc & _).
  destruct (render_broken s1 Hne Hbad) as ([msg Ht] & Hl & Hg).
  unfold try_catch. destruct (render s1) as [c t]. cbn [fst snd] in *. subst c.
  rewrite load_failed_run. cbn [snd].
  destruct (pagination t) as [b|]; [|discriminate Hg].
  cbn. rewrite Hp, Hf, Hl, Hc. repeat split; eauto.
Qed.

(** X9. When no record passes, applyFilters completes (also on a page
    without previous and next controls), shows the no-projects placeholder,
    hides the pagination bar if there is one, sets the current page to 1 and
    leaves totalPages and the controls as they were. *)
Theorem applyFilters_without_a_match (s : state) :
  filter_of s = Normal [] →
  let s' := snd (applyFilters s) in
  fst (applyFilters s) = Normal tt
  ∧ filtered s' = []
  ∧ grid s' = EmptyState
  ∧ pagination s' = (fun _ => true) <$> pagination s
  ∧ currentPage s' = 1
  ∧ totalPages s' = totalPages s
  ∧ prevBtn s' = prevBtn s ∧ nextBtn s' = nextBtn s ∧ pageInfo s' = pageInfo s.
Proof.
  intros H. rewrite applyFilters_run. unfold filter_of in H. rewrite H.
  rewrite render_empty by done.
  destruct s as [ps fl cp tp g gl fs si pg pv nx pi fo co fe ti]. cbn.
  destruct pg; cbn; repeat split; reflexivity.
Qed.

Lemma keep_all_empty p : keep "all" "" p = Normal true.
Proof. reflexivity. Qed.

Lemma filterM_all_true {A} (f : A → completion bool) l :
  (∀ x, x ∈ l → f x = Normal true) → filterM f l = Normal l.
Proof.
  induction l as [|x l IH]; intros H; [done|]. cbn.
  rewrite (H x) by (by left). cbn. rewrite IH by (intros; apply H; by right). done.
Qed.

(** X10. With the sentinel selected (or no tag control on the page) and an
    empty query (or no search field), applyFilters keeps the whole catalog,
    in order, whatever the records hold: the callback does not look at
    [tech] then, so it cannot throw. *)
Theorem applyFilters_without_filters (s : state) :
  selected_tag (filterSelect s) = "all" →
  search_query (searchInput s) = "" →
  let s' := snd (applyFilters s) in
  filtered s' = projects s ∧ projects s' = projects s ∧ currentPage s' = 1.
Proof.
  intros Ht Hq. rewrite applyFilters_run, Ht, Hq.
  rewrite filterM_all_true by (intros; apply keep_all_empty).
  destruct (render_vars (set_currentPage 1 (set_filtered (projects s) s)))
    as (Hp & Hf & _ & _ & _ & _ & _ & _ & Hc).
  split; [exact Hf|]. split; [exact Hp|]. rewrite Hc. cbn.
  destruct (length (projects s) =? 0)%nat; [done|]. pose proof (pages_ge_1 (length (projects s))). lia.
Qed.

Lemma includes_trans a b c : includes a b = true → includes b c = true → includes a c = true.
Proof.
  rewrite !includes_occurs. intros (x & y & ->) (u & v & ->).
  exists (x +:+ u), (v +:+ y).
  by rewrite !append_assoc.
Qed.

Lemma okText_narrows q1 q2 p b2 :
  includes q2 q1 = true → okText q2 p = Normal b2 →
  ∃ b1, okText q1 p = Normal b1 ∧ (b2 = true → b1 = true).
Proof.
  unfold okText. intros Hq.
  destruct (String.eqb_spec q1 "") as [->|Hq1]; [by exists true|].
  destruct (String.eqb_spec q2 "") as [->|_].
  - destruct q1; [done|]. discriminate Hq.
  - destruct (hay p) as [h|e]; cbn; [|done]. intros [= <-].
    exists (includes h q1). split; [done|]. intros H. by apply (includes_trans _ q2).
Qed.

Lemma keep_narrows tech q1 q2 p b2 :
  includes q2 q1 = true → keep tech q2 p = Normal b2 →
  ∃ b1, keep tech q1 p = Normal b1 ∧ (b2 = true → b1 = true).
Proof.
  intros Hq. unfold keep. destruct (okTech tech p) as [[|]|e]; cbn; [| |done].
  - by apply okText_narrows.
  - intros [= <-]. by exists false.
Qed.

(** X13. A query in which another query occurs keeps no record that the
    other one drops: typing further characters around a query can only
    narrow the subset (and if the longer one filters without a throw, so
    does the shorter). *)
Theorem longer_query_narrows (tech q1 q2 : string) (ps kept2 : list record) :
  includes q2 q1 = true →
  filterM (keep tech q2) ps = Normal kept2 →
  ∃ kept1, filterM (keep tech q1) ps = Normal kept1 ∧ kept2 `sublist_of` kept1.
Proof.
  intros Hq. revert kept2. induction ps as [|p ps IH]; intros kept2; cbn.
  - intros [= <-]. by exists [].
  - destruct (keep tech q2 p) as [b2|] eqn:E2; cbn; [|done].
    destruct (keep_narrows tech q1 q2 p b2 Hq E2) as (b1 & -> & Hb).
    destruct (filterM (keep tech q2) ps) as [rest|]; cbn; [|done].
    destruct (IH rest eq_refl) as [k1 [-> Hs]]. cbn. intros [= <-].
    destruct b2, b1; try (by discriminate (Hb eq_refl)).
    + exists (p :: k1). split; [done|]. by apply sublist_skip.
    + exists (p :: k1). split; [done|]. by apply sublist_cons.
    + by exists k1.
Qed.

Lemma capital_space1 a : capital a = true → space1 a = false ∧ space1 (lower_char a) = false.
Proof. destruct a as [[] [] [] [] [] [] [] []]; (discriminate || by split). Qed.

Lemma capital_code a : capital a = true → (nat_of_ascii a < 128)%nat ∧ (nat_of_ascii (lower_char a) < 128)%nat.
Proof.
  intros H. rewrite lower_char_code, H. unfold capital in H.
  apply andb_true_iff in H as [H1 H2]. apply Nat.leb_le in H1, H2. lia.
Qed.

Lemma lower_char_other a : capital a = false → lower_char a = a.
Proof. unfold lower_char, capital. by intros ->. Qed.

Lemma space2_high a b :
  (nat_of_ascii a < 128)%nat ∨ (nat_of_ascii b < 128)%nat → space2 a b = false.
Proof.
  intros H. unfold space2.
  repeat match goal with
         | |- context [Nat.eqb ?x ?y] => destruct (Nat.eqb_spec x y)
         end; cbn; try reflexivity; lia.
Qed.

Lemma space3_high a b c :
  (nat_of_ascii a < 128)%nat ∨ (nat_of_ascii b < 128)%nat ∨ (nat_of_ascii c < 128)%nat →
  space3 a b c = false.
Proof.
  unfold space3. cbv zeta.
  generalize (nat_of_ascii a), (nat_of_ascii b), (nat_of_ascii c). intros x y z H.
  destruct (decide (x < 128)%nat) as [Hx|Hx].
  { repeat match goal with
           | |- context [Nat.eqb x ?k] =>
               replace (Nat.eqb x k) with false by (symmetry; apply Nat.eqb_neq; lia)
           end. reflexivity. }
  destruct (decide (y < 128)%nat) as [Hy|Hy].
  { repeat match goal with
           | |- context [Nat.eqb y ?k] =>
               replace (Nat.eqb y k) with false by (symmetry; apply Nat.eqb_neq; lia)
           end. by rewrite !andb_false_r. }
  assert (Hz : (z < 128)%nat) by lia.
  repeat match goal with
         | |- context [Nat.eqb z ?k] =>
             replace (Nat.eqb z k) with false by (symmetry; apply Nat.eqb_neq; lia)
         end.
  replace (Nat.leb 128 z) with false by (symmetry; apply Nat.leb_gt; lia).
  cbn [andb orb]. by rewrite !andb_false_r.
Qed.

Lemma space1_lower a : space1 (lower_char a) = space1 a.
Proof.
  destruct (capital a) eqn:E; [|by rewrite lower_char_other].
  destruct (capital_space1 a E) as [-> ->]. done.
Qed.

Lemma space2_lower a b : space2 (lower_char a) (lower_char b) = space2 a b.
Proof.
  destruct (capital a) eqn:Ea.
  { destruct (capital_code a Ea). rewrite !space2_high; auto. }
  rewrite (lower_char_other a Ea). destruct (capital b) eqn:Eb.
  { destruct (capital_code b Eb). rewrite !space2_high; auto. }
  by rewrite (lower_char_other b Eb).
Qed.

Lemma space3_lower a b c :
  space3 (lower_char a) (lower_char b) (lower_char c) = space3 a b c.
Proof.
  destruct (capital a) eqn:Ea.
  { destruct (capital_code a Ea). rewrite !space3_high; auto. }
  rewrite (lower_char_other a Ea). destruct (capital b) eqn:Eb.
  { destruct (capital_code b Eb). rewrite !space3_high; auto. }
  rewrite (lower_char_other b Eb). destruct (capital c) eqn:Ec.
  { destruct (capital_code c Ec). rewrite !space3_high; auto. }
  by rewrite (lower_char_other c Ec).
Qed.

Lemma lower_white_space s :
  all_space (toLowerCase s) = all_space s
  ∧ trimStart (toLowerCase s) = toLowerCase (trimStart s).
Proof.
  assert (Hn : ∀ n s, (String.length s ≤ n)%nat →
            all_space (toLowerCase s) = all_space s
            ∧ trimStart (toLowerCase s) = toLowerCase (trimStart s)).
  { clear s. induction n as [|n IH]; intros s Hl.
    - destruct s; [done | simpl in Hl; lia].
    - destruct s as [|a r]; [done|]. cbn [String.length] in Hl.
      cbn [toLowerCase all_space trimStart]. rewrite space1_lower.
      destruct (space1 a); [apply IH; lia|].
      destruct r as [|b r2]; [done|]. cbn [String.length] in Hl.
      cbn [toLowerCase]. rewrite space2_lower.
      destruct (space2 a b); [apply IH; lia|].
      destruct r2 as [|c r3]; [done|]. cbn [String.length] in Hl.
      cbn [toLowerCase]. rewrite space3_lower.
      destruct (space3 a b c); [apply IH; lia | done]. }
  by apply (Hn (String.length s)).
Qed.

Lemma all_space_lower s : all_space (toLowerCase s) = all_space s.
Proof. apply lower_white_space. Qed.

Lemma trimStart_lower s : trimStart (toLowerCase s) = toLowerCase (trimStart s).
Proof. apply lower_white_space. Qed.

Lemma trimEnd_lower s : trimEnd (toLowerCase s) = toLowerCase (trimEnd s).
Proof.
  induction s as [|c s IH]; [done|].
  cbn [toLowerCase trimEnd]. change (String (lower_char c) (toLowerCase s)) with (toLowerCase (String c s)).
  rewrite all_space_lower. destruct (all_space (String c s)); [done|].
  cbn. by rewrite IH.
Qed.

Lemma trim_lower s : trim (toLowerCase s) = toLowerCase (trim s).
Proof. unfold trim. by rewrite trimStart_lower, trimEnd_lower. Qed.

(** X14. Two search texts that differ in the case of their letters only
    give the same query, the same subset and the same state after
    applyFilters (but for the text in the field). *)
Theorem search_ignores_case (a b : string) (s : state) :
  toLowerCase a = toLowerCase b →
  search_query (Some a) = search_query (Some b)
  ∧ filter_of (set_searchInput (Some a) s) = filter_of (set_searchInput (Some b) s)
  ∧ snd (applyFilters (set_searchInput (Some a) s))
    = set_searchInput (Some a) (snd (applyFilters (set_searchInput (Some b) s))).
Proof.
  intros H.
  assert (Hq : toLowerCase (trim a) = toLowerCase (trim b)) by (by rewrite <- !trim_lower, H).
  split; [exact Hq|]. split.
  - unfold filter_of. cbn. by rewrite Hq.
  - rewrite !applyFilters_search, Hq.
    destruct (filterM _ _); reflexivity.
Qed.

Lemma includes_app_l a b q : includes a q = true → includes (a +:+ b) q = true.
Proof.
  rewrite !includes_occurs. intros (x & y & ->). exists x, (y +:+ b).
  by rewrite !append_assoc.
Qed.

Lemma includes_app_r a b q : includes b q = true → includes (a +:+ b) q = true.
Proof.
  rewrite !includes_occurs. intros (x & y & ->). exists (a +:+ x), y.
  by rewrite !append_assoc.
Qed.

(** The parts of the text that the search looks at. *)
Lemma hay_parts p h :
  hay p = Normal h →
  ∃ title description tech tags,
    template (p !! "title") = Normal title
    ∧ or_empty (p !! "description") = Normal description
    ∧ or_empty_method (p !! "tech") = Normal tech
    ∧ or_empty_method (p !! "tags") = Normal tags
    ∧ h = toLowerCase title +:+ " " +:+ toLowerCase description +:+ " "
          +:+ toLowerCase tech +:+ " " +:+ toLowerCase tags.
Proof.
  unfold hay.
  destruct (template _) as [a|]; [|done]. destruct (or_empty _) as [b|]; [|done].
  destruct (or_empty_method (p !! "tech")) as [c|]; [|done].
  destruct (or_empty_method (p !! "tags")) as [d|]; [|done].
  cbn. intros [= <-]. exists a, b, c, d. do 4 (split; [done|]).
  by rewrite !toLowerCase_app.
Qed.

Lemma okText_includes q p h :
  hay p = Normal h → includes h q = true → okText q p = Normal true.
Proof.
  intros Hh Hq. unfold okText. destruct (String.eqb q ""); [done|].
  rewrite Hh. cbn. by rewrite Hq.
Qed.

(** X15. A record whose title or description (a string) contains the query
    when lower-cased passes the text test, when its searched fields can be
    converted to text: the record's own case does not matter. *)
Theorem text_in_title_or_description (q title : string) (p : record) :
  (p !! "title" = Some (JStr title) ∨ p !! "description" = Some (JStr title)) →
  includes (toLowerCase title) q = true →
  is_normal (hay p) = true →
  okText q p = Normal true.
Proof.
  intros Hf Hq Hn. destruct (hay p) as [h|e] eqn:E; [|discriminate Hn].
  apply (okText_includes q p h E).
  destruct (hay_parts p h E) as (a & b & c & d & Ha & Hb & _ & _ & ->).
  destruct Hf as [Hf|Hf]; rewrite Hf in *.
  - injection Ha as <-. by apply includes_app_l.
  - apply includes_app_r, includes_app_r.
    assert (Ht : b = title).
    { unfold or_empty in Hb. cbn in Hb.
      destruct (String.eqb_spec title ""); cbn in Hb; injection Hb as <-; by subst. }
    subst b. by apply includes_app_l.
Qed.

Lemma includes_refl s : includes s s = true.
Proof.
  apply includes_occurs. exists "", "".
  change (s = s +:+ ""). by rewrite append_empty_r.
Qed.

Lemma includes_join sep (xs : list string) x q :
  x ∈ xs → includes x q = true → includes (join sep xs) q = true.
Proof.
  induction xs as [|y xs IH]; intros Hin Hq; [by apply not_elem_of_nil in Hin|].
  apply elem_of_cons in Hin as [->|Hin].
  - destruct xs; [done|]. cbn [join]. by apply includes_app_l.
  - destruct xs as [|z xs]; [by apply not_elem_of_nil in Hin|].
    cbn [join]. apply includes_app_r, includes_app_r. by apply IH.
Qed.

Lemma mapM_elem {A B} (f : A → completion B) l ys x y :
  mapM f l = Normal ys → x ∈ l → f x = Normal y → y ∈ ys.
Proof.
  revert ys. induction l as [|a l IH]; intros ys Hm Hin Hx.
  - by apply not_elem_of_nil in Hin.
  - cbn [mapM] in Hm. destruct (f a) as [b|] eqn:Ea; [|done]. cbn in Hm.
    destruct (mapM f l) as [bs|]; [|done]. cbn in Hm. injection Hm as <-.
    apply elem_of_cons in Hin as [->|Hin].
    + rewrite Hx in Ea. injection Ea as ->. by left.
    + right. by apply IH.
Qed.

Lemma array_text_includes (l : list json) (t q text : string) :
  or_empty_method (Some (JArr l)) = Normal text →
  JStr t ∈ l → includes (toLowerCase t) q = true →
  includes (toLowerCase text) q = true.
Proof.
  intros Ha Hin Hq. unfold or_empty_method in Ha. cbn [truthy] in Ha.
  change (toString_method (JArr l)) with (toString (JArr l)) in Ha.
  rewrite toString_array in Ha. unfold array_join in Ha.
  destruct (mapM element_text l) as [parts|] eqn:E; [|done]. cbn in Ha.
  injection Ha as <-.
  pose proof (mapM_elem element_text l parts (JStr t) t E Hin eq_refl) as Hp.
  pose proof (includes_join "," parts t t Hp (includes_refl t)) as Hj.
  apply includes_occurs in Hj as (u & v & ->).
  apply includes_occurs in Hq as (x & y & Hx).
  rewrite !toLowerCase_app, Hx. apply includes_occurs.
  exists (toLowerCase u +:+ x), (y +:+ toLowerCase v). by rewrite !append_assoc.
Qed.

(** X16. A record one of whose tech or tags values (strings of an array)
    contains the query when lower-cased passes the text test, when its
    searched fields can be converted to text. *)
Theorem text_in_tech_or_tags (q t : string) (l : list json) (p : record) :
  (p !! "tech" = Some (JArr l) ∨ p !! "tags" = Some (JArr l)) →
  JStr t ∈ l →
  includes (toLowerCase t) q = true →
  is_normal (hay p) = true →
  okText q p = Normal true.
Proof.
  intros Hf Hin Hq Hn. destruct (hay p) as [h|e] eqn:E; [|discriminate Hn].
  apply (okText_includes q p h E).
  destruct (hay_parts p h E) as (a & b & c & d & _ & _ & Hc & Hd & ->).
  destruct Hf as [Hf|Hf]; rewrite Hf in *.
  - do 4 apply includes_app_r. apply includes_app_l.
    by apply (array_text_includes l t q c).
  - do 6 apply includes_app_r. by apply (array_text_includes l t q d).
Qed.

Lemma dispatch_TypeSearch s v :
  present (searchInput s) = true →
  dispatch s (TypeSearch v) = set_timer true (set_searchInput (Some v) s).
Proof.
  unfold dispatch, handle. destruct (searchInput s); [done | discriminate].
Qed.

Lemma run_typing (last : string) (texts : list string) : ∀ s,
  present (searchInput s) = true →
  run (TypeSearch <$> (texts ++ [last])) s = set_timer true (set_searchInput (Some last) s).
Proof.
  induction texts as [|t texts IH]; intros s Hp.
  - by apply dispatch_TypeSearch.
  - change (run (TypeSearch <$> (t :: texts) ++ [last]) s)
      with (run (TypeSearch <$> texts ++ [last]) (dispatch s (TypeSearch t))).
    rewrite dispatch_TypeSearch by done. rewrite IH by done. by destruct s.
Qed.

Lemma applyFilters_timer s : timer (snd (applyFilters s)) = timer s.
Proof.
  rewrite applyFilters_run. destruct (filterM _ _) as [kept|]; [|done].
  by destruct (render_vars (set_currentPage 1 (set_filtered kept s)))
    as (_ & _ & _ & _ & _ & _ & Ht & _).
Qed.

(** X17. However many input events precede it, the debounce timer running
    out once runs applyFilters once, on the text typed last; after that no
    call is pending and a further timer event does nothing. *)
Theorem typing_burst_filters_once (texts : list string) (last : string) (s : state) :
  present (searchInput s) = true →
  let typed := set_timer true (set_searchInput (Some last) s) in
  let fired := dispatch typed TimerFires in
  run ((TypeSearch <$> (texts ++ [last])) ++ [TimerFires]) s = fired
  ∧ handle TimerFires typed = applyFilters (set_timer false (set_searchInput (Some last) s))
  ∧ timer fired = false
  ∧ dispatch fired TimerFires = fired.
Proof.
  intros Hp typed fired.
  assert (Hh : handle TimerFires typed
               = applyFilters (set_timer false (set_searchInput (Some last) s)))
    by (by destruct s).
  assert (Ht : timer fired = false).
  { subst fired. unfold dispatch. rewrite Hh.
    pose proof (applyFilters_timer (set_timer false (set_searchInput (Some last) s))) as H.
    destruct (applyFilters _) as [[[]|e] s']; exact H. }
  split; [|split; [exact Hh | split; [exact Ht|]]].
  - unfold run. rewrite foldl_app. fold (run (TypeSearch <$> texts ++ [last]) s).
    by rewrite run_typing.
  - unfold dispatch at 1, handle. by rewrite Ht.
Qed.

Lemma same_elements_refl s : same_elements s s.
Proof. by repeat split. Qed.

Lemma same_elements_trans s1 s2 s3 :
  same_elements s1 s2 → same_elements s2 s3 → same_elements s1 s3.
Proof.
  unfold same_elements. intros (?&?&?&?&?&?) (?&?&?&?&?&?). repeat split; congruence.
Qed.

Lemma render_same_elements s : same_elements s (snd (render s)).
Proof.
  destruct s as [ps fl cp tp g gl fs si pg pv nx pi fo co fe ti].
  unfold same_elements. js_unfold. simpl. destruct (length fl =? 0)%nat; simpl.
  - destruct pg; by repeat split.
  - destruct (mapM buildCard _) as [cards|e]; simpl; [|by repeat split].
    destruct pg, pv, nx, pi; by repeat split.
Qed.

(** What render writes on a page whose pager is complete, for a subset of
    records of the data model. *)
Lemma render_controls s :
  filtered s ≠ [] → forallb conforms (filtered s) = true →
  pager_complete s = true →
  let tp := pages (length (filtered s)) in
  let cp := Z.min (currentPage s) tp in
  let s' := snd (render s) in
  fst (render s) = Normal tt
  ∧ (∃ cards, cards_of (filtered s) cp = Normal cards ∧ grid s' = Cards cards)
  ∧ pagination s' = (fun _ => tp <=? 1) <$> pagination s
  ∧ prevBtn s' = match pagination s with Some _ => Some (cp =? 1) | None => prevBtn s end
  ∧ nextBtn s' = match pagination s with Some _ => Some (cp =? tp) | None => nextBtn s end
  ∧ focused s' = focused s.
Proof.
  intros Hne Hd Hc.
  pose proof (page_conforms (filtered s)
                (Z.min (currentPage s) (pages (length (filtered s)))) Hd) as Hn.
  rewrite (render_page s Hne). cbv zeta.
  destruct (cards_of _ _) as [cards|e] eqn:E; [|discriminate Hn]. clear Hn.
  generalize (Z.min (currentPage s) (pages (length (filtered s)))),
    (pages (length (filtered s))),
    (pretty (length (filtered s)) +:+ " projects. Showing "
     +:+ pretty (length (page_of (filtered s)
                   (Z.min (currentPage s) (pages (length (filtered s))))))
     +:+ " on this page.").
  intros c t label.
  destruct s as [ps fl cp tp g gl fs si pg pv nx pi fo co fe ti].
  unfold pager_complete in Hc. cbn [pagination prevBtn nextBtn present] in Hc.
  destruct pg, pv, nx, pi; try discriminate;
    lazy -[pretty String.append Z.eqb Z.leb Z.ltb cards_of];
    (split; [reflexivity|]); (split; [by exists cards|]); repeat split; reflexivity.
Qed.

Lemma render_complete s :
  pager_complete s = true → forallb conforms (filtered s) = true →
  fst (render s) = Normal tt.
Proof.
  intros Hc Hd. destruct (decide (filtered s = [])) as [He|Hne].
  - by rewrite (render_empty s He).
  - by destruct (render_controls s Hne Hd Hc) as (H & _).
Qed.

Lemma applyFilters_same_elements s : same_elements s (snd (applyFilters s)).
Proof.
  rewrite applyFilters_run. destruct (filterM _ _) as [kept|]; [|apply same_elements_refl].
  apply (render_same_elements (set_currentPage 1 (set_filtered kept s))).
Qed.

Lemma handle_same_elements e s : same_elements s (snd (handle e s)).
Proof.
  destruct e; unfold handle.
  - destruct (filterSelect s) eqn:E; [|apply same_elements_refl].
    apply (same_elements_trans _ (set_filterSelect (Some v) s)); [|apply applyFilters_same_elements].
    unfold same_elements. cbn. rewrite E. by repeat split.
  - destruct (searchInput s) eqn:E; [|apply same_elements_refl].
    unfold same_elements. cbn. rewrite E. by repeat split.
  - destruct (timer s); [|apply same_elements_refl].
    apply (applyFilters_same_elements (set_timer false s)).
  - destruct (searchInput s); [|apply same_elements_refl]. apply applyFilters_same_elements.
  - destruct (prevBtn s); [|apply same_elements_refl].
    rewrite prevClick_run.
    destruct (1 <? currentPage s); [|apply same_elements_refl].
    pose proof (render_same_elements (set_currentPage (currentPage s - 1) s)) as H.
    destruct (render _) as [[[]|e] s']; [|exact H].
    cbn [snd]. destruct (focusable _ _); exact H.
  - destruct (nextBtn s); [|apply same_elements_refl].
    rewrite nextClick_run.
    destruct (currentPage s <? totalPages s); [|apply same_elements_refl].
    pose proof (render_same_elements (set_currentPage (currentPage s + 1) s)) as H.
    destruct (render _) as [[[]|e] s']; [|exact H].
    cbn [snd]. destruct (focusable _ _); exact H.
Qed.

Lemma dispatch_same_elements s e : same_elements s (dispatch s e).
Proof.
  unfold dispatch. pose proof (handle_same_elements e s) as H.
  destruct (handle e s) as [[[]|err] s']; exact H.
Qed.

Lemma run_same_elements evs : ∀ s, same_elements s (run evs s).
Proof.
  induction evs as [|e evs IH]; intros s; [apply same_elements_refl|].
  change (run (e :: evs) s) with (run evs (dispatch s e)).
  eapply same_elements_trans; [apply dispatch_same_elements | apply IH].
Qed.

Lemma same_elements_complete s s' :
  same_elements s s' → pager_complete s' = pager_complete s.
Proof. unfold same_elements, pager_complete. intros (_&_&->&->&->&_). done. Qed.

(** X7. Whatever the visitor did before the answer arrived, a catalog of
    records of the data model that is not empty, loaded on a page whose
    pager is complete, is shown from its first page: the current page is 1,
    the page count is that of the whole catalog, and the grid holds the
    cards of the first six records (or of all, if fewer). *)
Theorem load_shows_the_first_page (sel inp : option string) (pg prev next : option bool)
    (info : option string) (before : list event) (status : Z) (data : list json)
    (ps : list record) :
  let page := initial sel inp pg prev next info in
  let answer := load (Responded status (Some (JArr data))) (run before page) in
  ok status = true →
  map_from normalize 0 data = Normal ps →
  ps ≠ [] →
  forallb conforms ps = true →
  pager_complete page = true →
  fst answer = Normal tt
  ∧ projects (snd answer) = ps ∧ filtered (snd answer) = ps
  ∧ currentPage (snd answer) = 1
  ∧ totalPages (snd answer) = Z.max 1 (ceil_div (Z.of_nat (length ps)) PER_PAGE)
  ∧ ∃ cards, mapM buildCard (take 6 ps) = Normal cards
             ∧ grid (snd answer) = Cards cards.
Proof.
  intros page answer Hok Hm Hne Hd Hc. subst answer.
  set (s := run before page).
  assert (H0 : pager_inv page) by (unfold pager_inv; cbn; done).
  assert (S0 : filtered page `sublist_of` projects page) by (cbn; constructor).
  destruct (run_inv before page H0 S0) as [(_ & _ & H1) _].
  destruct (initial_run_projects sel inp pg prev next info before) as (P1 & _ & _).
  fold page in P1. fold s in H1, P1. destruct (H1 P1) as [Hcp Htp].
  rewrite (load_accepted _ _ _ _ Hok Hm).
  set (s1 := set_filtered ps (set_projects ps (set_fetches (S (fetches s)) s))).
  assert (Hc1 : pager_complete s1 = true).
  { rewrite <- Hc. transitivity (pager_complete s); [done|].
    apply same_elements_complete, run_same_elements. }
  destruct (render_controls s1 Hne Hd Hc1) as (Hn & (cards & Hcards & Hg) & _).
  destruct (render_vars s1) as (Hp & Hf & _ & _ & _ & _ & _ & Ht & Hcur).
  unfold try_catch. destruct (render s1) as [c t]. cbn [fst snd] in *. subst c.
  cbn [fst snd].
  assert (Hz : (length ps =? 0)%nat = false) by (destruct ps; [done | reflexivity]).
  change (filtered s1) with ps in *. change (currentPage s1) with (currentPage s) in *.
  rewrite Hz in Ht, Hcur. rewrite Hcp in Hcur, Hcards.
  pose proof (pages_ge_1 (length ps)) as Hge.
  rewrite Z.min_l in Hcur, Hcards by done.
  split; [done|]. split; [done|]. split; [done|]. split; [done|]. split; [done|].
  exists cards. split; [|done]. unfold cards_of in Hcards. by rewrite page_of_first in Hcards.
Qed.

Lemma normalize_with_id (m : gmap string json) (v : json) (i : nat) :
  m !! "id" = Some v → normalize (JObj m) i = Normal m.
Proof.
  intros H. unfold normalize. cbn [own_props get_prop]. f_equal.
  apply map_eq. intros k. rewrite lookup_union.
  destruct (decide (k = "id")) as [->|Hk].
  - rewrite H. by destruct (_ !! _).
  - rewrite lookup_singleton_ne by done. by destruct (m !! k).
Qed.

(** X18. A source object that has an [id] field is stored as it is, also
    when that id is falsy (an empty string, 0, null, false): the spread
    writes the object's own id over the synthesized one. *)
Theorem source_id_is_kept (s : state) (status : Z) (data : list json)
    (i : nat) (m : gmap string json) (v : json) :
  ok status = true →
  JNull ∉ data →
  data !! i = Some (JObj m) →
  m !! "id" = Some v →
  projects (snd (load (Responded status (Some (JArr data))) s)) !! i = Some m.
Proof.
  intros Hok Hnull Hi Hid.
  destruct (normalize_all_normal data Hnull) as [ps Hm].
  destruct (load_projects_accepted _ _ _ s Hok Hm) as [-> _].
  destruct (map_from_lookup _ _ _ _ _ _ Hm Hi) as [q [Hq Hps]].
  rewrite (normalize_with_id m v _ Hid) in Hq. by injection Hq as <-.
Qed.

Lemma load_same_elements net s : same_elements s (snd (load net s)).
Proof.
  assert (Hf : ∀ err t, same_elements t (snd (load_failed err t))).
  { intros err t. rewrite load_failed_run. cbn [snd]. unfold same_elements.
    destruct (pagination t) eqn:E; cbn; rewrite ?E; by repeat split. }
  destruct (rejection net) as [err|] eqn:E.
  - rewrite (load_rejected _ _ _ E).
    apply (same_elements_trans _ (set_fetches (S (fetches s)) s)); [by repeat split|apply Hf].
  - destruct net as [|status body]; [done|]. unfold rejection in E.
    destruct (ok status) eqn:Hok; [|done]. cbn [negb] in E.
    destruct body as [[| | | |data|]|]; try done.
    destruct (map_from normalize 0 data) as [ps|] eqn:Hm; [|done].
    rewrite (load_accepted _ _ _ _ Hok Hm). unfold try_catch.
    set (s1 := set_filtered ps (set_projects ps (set_fetches (S (fetches s)) s))).
    pose proof (render_same_elements s1) as H1.
    assert (H0 : same_elements s s1) by (by repeat split).
    destruct (render s1) as [[[]|e] t]; cbn [snd] in *.
    + by eapply same_elements_trans.
    + eapply same_elements_trans; [|apply Hf]. by eapply same_elements_trans.
Qed.

Lemma applyFilters_empty_catalog s :
  projects s = [] →
  fst (applyFilters s) = Normal tt
  ∧ grid (snd (applyFilters s)) = EmptyState ∧ filtered (snd (applyFilters s)) = [].
Proof.
  intros H. rewrite applyFilters_run, H. cbn [filterM mret completion_ret].
  rewrite render_empty by done. cbn [fst snd]. by destruct (pagination _).
Qed.

(** X19. After a failed load the grid shows the unable-to-load notice, and
    the first filter event (Enter in the search field, a tag selection)
    replaces it by the no-projects placeholder, the catalog being empty. *)
Theorem filtering_replaces_the_notice (sel inp : option string) (pg prev next : option bool)
    (info : option string) (before : list event) (net : fetched) (e : event) :
  let page := initial sel inp pg prev next info in
  load_fails net = true →
  (e = PressEnter ∧ present inp = true) ∨ (∃ v, e = SelectTag v ∧ present sel = true) →
  grid (visit page before net []) = UnableToLoad
  ∧ grid (visit page before net [e]) = EmptyState
  ∧ projects (visit page before net [e]) = [].
Proof.
  intros page Hf He. unfold visit.
  set (s := run before page). set (s' := snd (load net s)).
  destruct (initial_run_projects sel inp pg prev next info before) as (Hbp & _ & _).
  fold page in Hbp. fold s in Hbp.
  apply rejection_fails in Hf as [err E].
  assert (Hs' : s' = snd (load_failed err (set_fetches (S (fetches s)) s)))
    by (subst s'; by rewrite (load_rejected _ _ _ E)).
  assert (Hg : grid s' = UnableToLoad).
  { rewrite Hs', load_failed_run. cbn [snd]. by destruct (pagination _). }
  assert (Hp : projects s' = []).
  { rewrite Hs', load_failed_run. cbn [snd]. by destruct (pagination _). }
  assert (Hel : same_elements page s').
  { eapply same_elements_trans; [apply run_same_elements | apply load_same_elements]. }
  destruct Hel as (Hsel & Hinp & _).
  split; [exact Hg|].
  change (run [e] s') with (dispatch s' e). unfold dispatch.
  assert (Hh : ∃ t, handle e s' = applyFilters t ∧ projects t = []).
  { destruct He as [[-> Hi] | [v [-> Hi]]]; unfold handle.
    - change (present (searchInput page)) with (present inp) in Hinp.
      destruct (searchInput s'); [|cbn in Hinp; congruence]. by exists s'.
    - change (present (filterSelect page)) with (present sel) in Hsel.
      destruct (filterSelect s'); [|cbn in Hsel; congruence]. by exists (set_filterSelect (Some v) s'). }
  destruct Hh as (t & -> & Ht).
  destruct (applyFilters_empty_catalog t Ht) as (Hn & Hgr & _).
  destruct (applyFilters_kept_apart t) as (Hpr & _).
  destruct (applyFilters t) as [c u]. cbn [fst snd] in *. subst c.
  split; [exact Hgr | congruence].
Qed.

(** rendering a page that exists *)
Lemma turn_page s k :
  filtered s ≠ [] → forallb conforms (filtered s) = true →
  pager_complete s = true →
  1 ≤ k ≤ pages (length (filtered s)) →
  let r := render (set_currentPage k s) in
  fst r = Normal tt
  ∧ currentPage (snd r) = k
  ∧ totalPages (snd r) = pages (length (filtered s))
  ∧ (∃ cards, cards_of (filtered s) k = Normal cards ∧ grid (snd r) = Cards cards)
  ∧ filtered (snd r) = filtered s
  ∧ same_elements s (snd r)
  ∧ pagination (snd r) = (fun _ => pages (length (filtered s)) <=? 1) <$> pagination s
  ∧ prevBtn (snd r) = match pagination s with Some _ => Some (k =? 1) | None => prevBtn s end
  ∧ nextBtn (snd r) = match pagination s with
                      | Some _ => Some (k =? pages (length (filtered s)))
                      | None => nextBtn s
                      end
  ∧ focused (snd r) = focused s.
Proof.
  intros Hne Hd Hc Hk r. subst r. set (s1 := set_currentPage k s).
  assert (Hc1 : pager_complete s1 = true) by exact Hc.
  destruct (render_controls s1 Hne Hd Hc1) as (Hn & Hg & Hpg & Hpv & Hnx & Hfo).
  destruct (render_vars s1) as (_ & Hf & _ & _ & _ & _ & _ & Ht & Hcur).
  pose proof (render_same_elements s1) as He.
  change (filtered s1) with (filtered s) in *. change (currentPage s1) with k in *.
  change (pagination s1) with (pagination s) in *.
  change (prevBtn s1) with (prevBtn s) in *. change (nextBtn s1) with (nextBtn s) in *.
  assert (Hz : (length (filtered s) =? 0)%nat = false)
    by (destruct (filtered s); [done | reflexivity]).
  rewrite Hz in Ht, Hcur. rewrite Z.min_l in Hcur, Hg, Hpv, Hnx by lia.
  repeat split; try done; apply He.
Qed.

Lemma nextClick_moves s :
  currentPage s < totalPages s →
  fst (render (set_currentPage (currentPage s + 1) s)) = Normal tt →
  nextClick s =
    (Normal tt,
     let t := snd (render (set_currentPage (currentPage s + 1) s)) in
     if focusable NextControl t then set_focused (Some NextControl) t else t).
Proof.
  intros Hlt. rewrite nextClick_run.
  destruct (Z.ltb_spec (currentPage s) (totalPages s)); [|lia].
  destruct (render _) as [c t]. cbn [fst snd]. by intros ->.
Qed.

Lemma prevClick_moves s :
  1 < currentPage s →
  fst (render (set_currentPage (currentPage s - 1) s)) = Normal tt →
  prevClick s =
    (Normal tt,
     let t := snd (render (set_currentPage (currentPage s - 1) s)) in
     if focusable PrevControl t then set_focused (Some PrevControl) t else t).
Proof.
  intros Hlt. rewrite prevClick_run.
  destruct (Z.ltb_spec 1 (currentPage s)); [|lia].
  destruct (render _) as [c t]. cbn [fst snd]. by intros ->.
Qed.

(** X8. On a page that has the pagination bar and both controls, showing a
    subset of records of the data model, from a page before the last the
    next control shows the following page; it takes the focus unless that
    page is the last one, where render has just disabled it.  The previous
    control then shows the page the visitor came from, with the same page
    count and subset, and takes the focus unless that page is the first. *)
Theorem next_then_prev (s : state) :
  filtered s ≠ [] →
  forallb conforms (filtered s) = true →
  present (pagination s) = true →
  present (prevBtn s) = true → present (nextBtn s) = true →
  totalPages s = pages (length (filtered s)) →
  1 ≤ currentPage s < totalPages s →
  let s1 := dispatch s ClickNext in
  let s2 := dispatch s1 ClickPrev in
  (currentPage s1 = currentPage s + 1
   ∧ (∃ cards, cards_of (filtered s) (currentPage s + 1) = Normal cards
               ∧ grid s1 = Cards cards)
   ∧ nextBtn s1 = Some (currentPage s + 1 =? totalPages s)
   ∧ focused s1 = (if currentPage s + 1 =? totalPages s then focused s
                   else Some NextControl))
  ∧ (currentPage s2 = currentPage s
     ∧ (∃ cards, cards_of (filtered s) (currentPage s) = Normal cards
                 ∧ grid s2 = Cards cards)
     ∧ prevBtn s2 = Some (currentPage s =? 1)
     ∧ focused s2 = (if currentPage s =? 1 then focused s1 else Some PrevControl)
     ∧ totalPages s2 = totalPages s ∧ filtered s2 = filtered s).
Proof.
  intros Hne Hd Hpg Hpv Hnx Htp Hcp s1 s2.
  assert (Hc : pager_complete s = true).
  { unfold pager_complete. by rewrite Hpv, Hnx, Hpg. }
  destruct (pagination s) as [hid|] eqn:Epg; [|discriminate Hpg].
  destruct (turn_page s (currentPage s + 1) Hne Hd Hc ltac:(lia))
    as (Hn1 & Hc1 & Ht1 & Hg1 & Hf1 & He1 & Hp1 & Hv1 & Hx1 & Hfo1).
  rewrite Epg in Hp1, Hv1, Hx1. cbn [fmap option_fmap option_map] in Hp1.
  set (t1 := snd (render (set_currentPage (currentPage s + 1) s))) in *.
  assert (Hshown : (pages (length (filtered s)) <=? 1) = false) by (apply Z.leb_gt; lia).
  rewrite Hshown in Hp1. rewrite <- Htp in Hx1.
  assert (Hs1 : s1 = if currentPage s + 1 =? totalPages s then t1
                     else set_focused (Some NextControl) t1).
  { subst s1. unfold dispatch, handle. destruct (nextBtn s); [|discriminate].
    rewrite nextClick_moves by (done || lia). cbv zeta. fold t1.
    unfold focusable. rewrite Hx1, Hp1. by destruct (currentPage s + 1 =? totalPages s). }
  clearbody s1. subst s1.
  set (s1 := if currentPage s + 1 =? totalPages s then t1
             else set_focused (Some NextControl) t1) in *.
  assert (Hsame : ∀ {A} (f : state → A),
            (∀ v u, f (set_focused v u) = f u) → f s1 = f t1).
  { intros A f Hf. subst s1. by destruct (currentPage s + 1 =? totalPages s). }
  assert (Hfl : filtered s1 = filtered s) by (by rewrite (Hsame _ filtered)).
  assert (Hcs1 : currentPage s1 = currentPage s + 1) by (by rewrite (Hsame _ currentPage)).
  assert (Hne1 : filtered s1 ≠ []) by (by rewrite Hfl).
  assert (Hd1 : forallb conforms (filtered s1) = true) by (by rewrite Hfl).
  assert (Hcc1 : pager_complete s1 = true).
  { rewrite (Hsame _ pager_complete) by done. by rewrite (same_elements_complete _ _ He1). }
  assert (Hpg1 : pagination s1 = Some false) by (by rewrite (Hsame _ pagination)).
  assert (Hfo1' : focused s1 = if currentPage s + 1 =? totalPages s then focused s
                               else Some NextControl).
  { subst s1. by destruct (currentPage s + 1 =? totalPages s). }
  destruct (turn_page s1 (currentPage s1 - 1) Hne1 Hd1 Hcc1 ltac:(rewrite Hfl; lia))
    as (Hn2 & Hc2 & Ht2 & Hg2 & Hf2 & He2 & Hp2 & Hv2 & Hx2 & Hfo2).
  rewrite Hpg1 in Hp2, Hv2, Hx2. cbn [fmap option_fmap option_map] in Hp2.
  rewrite Hfl in Hp2, Ht2, Hg2. rewrite Hshown in Hp2.
  replace (currentPage s1 - 1) with (currentPage s) in * by lia.
  set (t2 := snd (render (set_currentPage (currentPage s) s1))) in *.
  assert (Hs2 : s2 = if currentPage s =? 1 then t2 else set_focused (Some PrevControl) t2).
  { subst s2. unfold dispatch, handle.
    assert (Hpv1 : present (prevBtn s1) = true).
    { rewrite (Hsame _ (fun u => present (prevBtn u))) by done.
      destruct He1 as (_&_&_&->&_). exact Hpv. }
    destruct (prevBtn s1); [|discriminate].
    rewrite prevClick_moves;
      replace (currentPage s1 - 1) with (currentPage s) by lia; [|lia|done].
    cbv zeta. fold t2.
    unfold focusable. rewrite Hv2, Hp2. by destruct (currentPage s =? 1). }
  split.
  - split; [exact Hcs1|]. split; [by rewrite (Hsame _ grid)|].
    split; [by rewrite (Hsame _ nextBtn) | exact Hfo1'].
  - rewrite Hs2. rewrite Htp.
    destruct (currentPage s =? 1); cbn [currentPage grid focused totalPages filtered
                                        prevBtn set_focused];
      rewrite Hc2, Ht2, Hf2, Hfl, Hv2, ?Hfo2; repeat split; done.
Qed.

(** X11. The subset that applyFilters stores holds exactly the records of
    the catalog that pass both the tag test and the text test. *)
Theorem filtered_records_pass_both_tests (s : state) (kept : list record) (p : record) :
  filter_of s = Normal kept →
  filtered (snd (applyFilters s)) = kept
  ∧ (p ∈ kept ↔
       p ∈ projects s
       ∧ okTech (selected_tag (filterSelect s)) p = Normal true
       ∧ okText (search_query (searchInput s)) p = Normal true).
Proof.
  intros H. split.
  - rewrite applyFilters_run. unfold filter_of in H. rewrite H.
    by destruct (render_vars (set_currentPage 1 (set_filtered kept s))) as (_ & -> & _).
  - unfold filter_of in H. by rewrite (filterM_elem _ _ _ p H), keep_true.
Qed.

Lemma filterM_stops {A} (f : A → completion bool) l x :
  x ∈ l → is_normal (f x) = false → is_normal (filterM f l) = false.
Proof.
  induction l as [|y l IH]; intros Hin Hx; [by apply not_elem_of_nil in Hin|].
  cbn. apply elem_of_cons in Hin as [<-|Hin].
  - by destruct (f x).
  - destruct (f y); [|done]. cbn. specialize (IH Hin Hx).
    by destruct (filterM f l).
Qed.

(** X12. If some record has a [tech] array with a value that is not a
    string, and a tag other than the sentinel is selected that the record's
    tags do not contain, applyFilters throws a TypeError and changes
    nothing: the subset, the page and the display stay as they were. *)
Theorem bad_tech_value_blocks_the_filter (s : state) (p : record) (l : list json) :
  p ∈ projects s →
  p !! "tech" = Some (JArr l) →
  forallb is_string l = false →
  selected_tag (filterSelect s) ≠ "all" →
  tags_match (selected_tag (filterSelect s)) p = false →
  ∃ msg, applyFilters s = (Throw (TypeError msg), s).
Proof.
  intros Hin Htech Hl Hsel Htags.
  set (tech := selected_tag (filterSelect s)) in *.
  assert (Hthrow : is_normal (okTech tech p) = false).
  { unfold okTech. destruct (String.eqb_spec tech "all"); [done|]. rewrite Htags.
    unfold tech_match. rewrite Htech.
    destruct (mapM lower_element l) as [ls|e] eqn:E; [|done].
    apply mapM_lower_normal in E as (ss & -> & _). exfalso.
    clear -Hl. induction ss as [|x ss IH]; [done|]. cbn in Hl. auto. }
  assert (Hkeep : is_normal (keep tech (search_query (searchInput s)) p) = false).
  { unfold keep. by destruct (okTech tech p). }
  pose proof (filterM_stops _ _ _ Hin Hkeep) as Hf.
  rewrite applyFilters_run. fold tech.
  destruct (filterM _ _) as [|e] eqn:E; [done|].
  apply filterM_throws in E. apply Exists_exists in E as (q & _ & Hq).
  apply keep_TypeError in Hq as [msg ->]. by exists msg.
Qed.

Lemma render_shows_a_page_witness :
  ∃ cards, grid (snd (render (set_currentPage 2 loaded_seven))) = Cards cards
           ∧ length cards = 1%nat.
Proof.
  assert (Hne : filtered (set_currentPage 2 loaded_seven) ≠ [])
    by (apply nonempty_length; vm_compute; reflexivity).
  assert (Hcp : 1 ≤ currentPage (set_currentPage 2 loaded_seven)) by (vm_compute; discriminate).
  assert (Hd : forallb conforms (filtered (set_currentPage 2 loaded_seven)) = true)
    by (vm_compute; reflexivity).
  pose proof (render_shows_a_page (set_currentPage 2 loaded_seven) Hne Hcp) as H.
  cbv zeta in H. destruct H as (_ & Hl & Hg & Hn). specialize (Hn Hd).
  destruct (mapM buildCard _) as [cards|e]; [|discriminate Hn].
  destruct Hg as [Hg Hc]. exists cards. split; [exact Hg|].
  rewrite Hc, Hl. vm_compute. reflexivity.
Defined.

Lemma render_sets_the_controls_witness :
  pagination (snd (render loaded_seven)) = Some false
  ∧ prevBtn (snd (render loaded_seven)) = Some true.
Proof.
  assert (Hne : filtered loaded_seven ≠ [])
    by (apply nonempty_length; vm_compute; reflexivity).
  assert (Hd : forallb conforms (filtered loaded_seven) = true) by (vm_compute; reflexivity).
  destruct (render_sets_the_controls loaded_seven Hne Hd) as (_ & _ & Hp & Hv & _);
    try (vm_compute; reflexivity).
  split.
  - rewrite Hp. vm_compute. reflexivity.
  - rewrite Hv. vm_compute. reflexivity.
Defined.

Lemma load_with_a_broken_pager_witness :
  grid (snd (load (Responded 200 (Some (JArr seven))) broken_page)) = UnableToLoad
  ∧ projects (snd (load (Responded 200 (Some (JArr seven))) broken_page)) = seven_records.
Proof.
  assert (Hm : map_from normalize 0 seven = Normal seven_records) by (vm_compute; reflexivity).
  assert (Hne : seven_records ≠ [])
    by (apply nonempty_length; vm_compute; reflexivity).
  destruct (load_with_a_broken_pager broken_page 200 seven seven_records eq_refl Hm Hne eq_refl)
    as (Hp & _ & Hg & _).
  split; [exact Hg | exact Hp].
Defined.

Lemma applyFilters_without_a_match_witness :
  grid (snd (applyFilters (set_searchInput (Some "zzz") loaded_seven))) = EmptyState
  ∧ totalPages (snd (applyFilters (set_searchInput (Some "zzz") loaded_seven))) = 2.
Proof.
  assert (H : filter_of (set_searchInput (Some "zzz") loaded_seven) = Normal [])
    by (vm_compute; reflexivity).
  destruct (applyFilters_without_a_match _ H) as (_ & _ & Hg & _ & _ & Ht & _).
  split; [exact Hg|]. rewrite Ht. vm_compute. reflexivity.
Defined.

Lemma applyFilters_without_filters_witness :
  filtered (snd (applyFilters (set_projects [odd] bare_page))) = [odd].
Proof.
  exact (proj1 (applyFilters_without_filters (set_projects [odd] bare_page) eq_refl eq_refl)).
Defined.

Lemma longer_query_narrows_witness :
  ∃ kept1, filterM (keep "all" "ta") seven_records = Normal kept1
           ∧ length kept1 = 4%nat.
Proof.
  assert (H2 : filterM (keep "all" "eta") seven_records
               = Normal [titled "p2" "Beta"; titled "p6" "Zeta"; titled "p7" "Eta"])
    by (vm_compute; reflexivity).
  destruct (longer_query_narrows "all" "ta" "eta" seven_records _ eq_refl H2)
    as (kept1 & H1 & _).
  exists kept1. split; [exact H1|].
  assert (Hv : filterM (keep "all" "ta") seven_records
               = Normal [titled "p2" "Beta"; titled "p4" "Delta"; titled "p6" "Zeta";
                         titled "p7" "Eta"])
    by (vm_compute; reflexivity).
  rewrite Hv in H1. injection H1 as <-. reflexivity.
Defined.

Lemma search_ignores_case_witness :
  search_query (Some "GaMMa ") = search_query (Some "gamma ").
Proof.
  exact (proj1 (search_ignores_case "GaMMa " "gamma " loaded_seven eq_refl)).
Defined.

Lemma text_in_title_or_description_witness : okText "sho" shop = Normal true.
Proof.
  apply (text_in_title_or_description "sho" "Shop" shop).
  - left. vm_compute. reflexivity.
  - reflexivity.
  - vm_compute. reflexivity.
Defined.

Lemma text_in_tech_or_tags_witness : okText "reac" shop = Normal true.
Proof.
  apply (text_in_tech_or_tags "reac" "React" [JStr "React"; JStr "Node"] shop).
  - left. vm_compute. reflexivity.
  - apply list_elem_of_here.
  - reflexivity.
  - vm_compute. reflexivity.
Defined.

Lemma typing_burst_filters_once_witness :
  run ((TypeSearch <$> (["g"; "ga"] ++ ["gam"])) ++ [TimerFires]) loaded_seven
  = dispatch (set_timer true (set_searchInput (Some "gam") loaded_seven)) TimerFires.
Proof.
  assert (Hp : present (searchInput loaded_seven) = true) by (vm_compute; reflexivity).
  exact (proj1 (typing_burst_filters_once ["g"; "ga"] "gam" loaded_seven Hp)).
Defined.

Lemma load_shows_the_first_page_witness :
  let page := initial (Some "all") (Some "") (Some false) (Some false) (Some false) (Some "") in
  let answer := load (Responded 200 (Some (JArr seven))) (run [PressEnter] page) in
  currentPage (snd answer) = 1
  ∧ ∃ cards, grid (snd answer) = Cards cards ∧ length cards = 6%nat.
Proof.
  intros page answer.
  assert (Hm : map_from normalize 0 seven = Normal seven_records) by (vm_compute; reflexivity).
  assert (Hne : seven_records ≠ [])
    by (apply nonempty_length; vm_compute; reflexivity).
  assert (Hd : forallb conforms seven_records = true) by (vm_compute; reflexivity).
  pose proof (load_shows_the_first_page (Some "all") (Some "") (Some false) (Some false)
                (Some false) (Some "") [PressEnter] 200 seven seven_records
                eq_refl Hm Hne Hd eq_refl) as H.
  cbv zeta in H. fold page in H. fold answer in H.
  destruct H as (_ & _ & _ & Hc & _ & cards & Hcards & Hg). split; [exact Hc|].
  exists cards. split; [exact Hg|]. apply mapM_length in Hcards. rewrite Hcards.
  vm_compute. reflexivity.
Defined.

Lemma source_id_is_kept_witness :
  ∃ m, projects (snd (load (Responded 200 (Some (JArr with_empty_id))) full_page)) !! 0%nat
       = Some m ∧ m !! "id" = Some (JStr "").
Proof.
  exists (list_to_map [("id", JStr ""); ("title", JStr "One")]). split.
  - apply (source_id_is_kept full_page 200 with_empty_id 0 _ (JStr "")).
    + reflexivity.
    + intros H. apply list_elem_of_singleton in H. discriminate H.
    + reflexivity.
    + vm_compute. reflexivity.
  - vm_compute. reflexivity.
Defined.

Lemma filtering_replaces_the_notice_witness :
  let page := initial (Some "all") (Some "") (Some false) (Some false) (Some false) (Some "") in
  grid (visit page [] (Responded 500 None) []) = UnableToLoad
  ∧ grid (visit page [] (Responded 500 None) [PressEnter]) = EmptyState.
Proof.
  intros page.
  pose proof (filtering_replaces_the_notice (Some "all") (Some "") (Some false) (Some false)
                (Some false) (Some "") [] (Responded 500 None) PressEnter) as H.
  cbv zeta in H. fold page in H.
  destruct (H eq_refl (or_introl (conj eq_refl eq_refl))) as (H1 & H2 & _).
  split; [exact H1 | exact H2].
Defined.

Lemma next_then_prev_witness :
  focused (dispatch loaded_twenty ClickNext) = Some NextControl
  ∧ currentPage (dispatch (dispatch loaded_twenty ClickNext) ClickPrev)
    = currentPage loaded_twenty.
Proof.
  assert (Hne : filtered loaded_twenty ≠ [])
    by (apply nonempty_length; vm_compute; reflexivity).
  assert (Hd : forallb conforms (filtered loaded_twenty) = true) by (vm_compute; reflexivity).
  assert (Hpg : present (pagination loaded_twenty) = true) by (vm_compute; reflexivity).
  assert (Hpv : present (prevBtn loaded_twenty) = true) by (vm_compute; reflexivity).
  assert (Hnx : present (nextBtn loaded_twenty) = true) by (vm_compute; reflexivity).
  assert (Htp : totalPages loaded_twenty = pages (length (filtered loaded_twenty)))
    by (vm_compute; reflexivity).
  assert (Hcp : 1 ≤ currentPage loaded_twenty < totalPages loaded_twenty)
    by (vm_compute; split; [discriminate | reflexivity]).
  assert (Hmid : (currentPage loaded_twenty + 1 =? totalPages loaded_twenty) = false)
    by (vm_compute; reflexivity).
  pose proof (next_then_prev loaded_twenty Hne Hd Hpg Hpv Hnx Htp Hcp) as H.
  cbv zeta in H. destruct H as ((_ & _ & _ & Hf) & (Hc & _)).
  rewrite Hmid in Hf. split; [exact Hf | exact Hc].
Defined.

Lemma filtered_records_pass_both_tests_witness :
  let s := set_searchInput (Some "eta") loaded_seven in
  filtered (snd (applyFilters s)) = [titled "p2" "Beta"; titled "p6" "Zeta"; titled "p7" "Eta"]
  ∧ titled "p6" "Zeta" ∈ filtered (snd (applyFilters s))
  ∧ okText (search_query (searchInput s)) (titled "p6" "Zeta") = Normal true.
Proof.
  intros s.
  assert (H : filter_of s = Normal [titled "p2" "Beta"; titled "p6" "Zeta"; titled "p7" "Eta"])
    by (vm_compute; reflexivity).
  destruct (filtered_records_pass_both_tests s _ (titled "p6" "Zeta") H) as [Hf Hiff].
  assert (Hin : titled "p6" "Zeta" ∈ [titled "p2" "Beta"; titled "p6" "Zeta"; titled "p7" "Eta"])
    by (right; left).
  split; [exact Hf|]. split; [rewrite Hf; exact Hin|].
  exact (proj2 (proj2 (proj1 Hiff Hin))).
Defined.

Lemma bad_tech_value_blocks_the_filter_witness :
  let s := set_filterSelect (Some "react") (set_projects [odd] full_page) in
  ∃ msg, applyFilters s = (Throw (TypeError msg), s).
Proof.
  intros s.
  apply (bad_tech_value_blocks_the_filter s odd [num 3]).
  - apply list_elem_of_here.
  - vm_compute. reflexivity.
  - reflexivity.
  - intros H. vm_compute in H. discriminate H.
  - vm_compute. reflexivity.
Defined.
